(** * Address validation API: parser, reconciler and response assembler

    A shallow embedding of [src/utils/addressParser.js] and
    [src/services/addressValidationService.js].

    Text is modelled as [string] over ASCII code units: character classes
    ([\s], [\w], [\d], [\b]) and case conversion are those of the ASCII
    range.  A JavaScript value that is "a string or null" is an
    [option string]; a key of the response that is [undefined] (and so left
    out of the JSON body) is [None].  The reference tables of
    [utils/constants.js] are looked up as finite tables over their own
    keys. *)

From Stdlib Require Import Bool List ZArith Lia Ascii String PrimFloat.
Import ListNotations.
Open Scope string_scope.

(* ================================================================== *)
(** ** Characters and strings, as the JavaScript string methods see them *)

Module Js.

(** Values a caller may hand to [parseAddress]. *)
Inductive value : Type :=
| VUndefined
| VNull
| VBool (b : bool)
| VNumber (n : float)
| VString (s : string)
| VObject.

Definition code (c : ascii) : N := N_of_ascii c.

Definition between (lo hi : N) (c : ascii) : bool :=
  ((lo <=? code c) && (code c <=? hi))%N.

Definition isDigit (c : ascii) : bool := between 48 57 c.
Definition isUpper (c : ascii) : bool := between 65 90 c.
Definition isLower (c : ascii) : bool := between 97 122 c.
Definition isAlpha (c : ascii) : bool := isUpper c || isLower c.

(** [\w] is [[A-Za-z0-9_]]. *)
Definition isWord (c : ascii) : bool :=
  isAlpha c || isDigit c || (code c =? 95)%N.

(** [\s]: tab, line feed, vertical tab, form feed, carriage return, space. *)
Definition isSpace (c : ascii) : bool :=
  between 9 13 c || (code c =? 32)%N.

Definition lowerChar (c : ascii) : ascii :=
  if isUpper c then ascii_of_N (code c + 32) else c.

Definition upperChar (c : ascii) : ascii :=
  if isLower c then ascii_of_N (code c - 32) else c.

Fixpoint smap (f : ascii -> ascii) (s : string) : string :=
  match s with
  | EmptyString => EmptyString
  | String c r => String (f c) (smap f r)
  end.

Fixpoint sfilter (f : ascii -> bool) (s : string) : string :=
  match s with
  | EmptyString => EmptyString
  | String c r => if f c then String c (sfilter f r) else sfilter f r
  end.

Fixpoint sforall (f : ascii -> bool) (s : string) : bool :=
  match s with
  | EmptyString => true
  | String c r => f c && sforall f r
  end.

Definition toLowerCase : string -> string := smap lowerChar.
Definition toUpperCase : string -> string := smap upperChar.

Definition isEmpty (s : string) : bool :=
  match s with EmptyString => true | _ => false end.

(** Truthiness of a value that is a string or null: null and the empty
    string are falsy. *)
Definition truthy (o : option string) : bool :=
  match o with
  | Some s => negb (isEmpty s)
  | None => false
  end.

(** [x || null] on a string-or-null. *)
Definition orNull (o : option string) : option string :=
  if truthy o then o else None.

(** [a === b] on two values that are strings or null. *)
Definition strictEq (a b : option string) : bool :=
  match a, b with
  | Some x, Some y => String.eqb x y
  | None, None => true
  | _, _ => false
  end.

(** Removal of the longest run of characters of a class at the start and
    at the end of a string. *)
Fixpoint dropStart (p : ascii -> bool) (s : string) : string :=
  match s with
  | EmptyString => EmptyString
  | String c r => if p c then dropStart p r else s
  end.

Fixpoint dropEnd (p : ascii -> bool) (s : string) : string :=
  match s with
  | EmptyString => EmptyString
  | String c r =>
      let r' := dropEnd p r in
      if p c && isEmpty r' then EmptyString else String c r'
  end.

(** [s.trimStart()], [s.trimEnd()], [s.trim()]. *)
Definition trimStart : string -> string := dropStart isSpace.
Definition trimEnd : string -> string := dropEnd isSpace.
Definition trim (s : string) : string := trimEnd (trimStart s).

(** The longest prefix of characters of a class, and what follows it. *)
Fixpoint span (p : ascii -> bool) (s : string) : string * string :=
  match s with
  | EmptyString => (EmptyString, EmptyString)
  | String c r =>
      if p c then let (a, b) := span p r in (String c a, b)
      else (EmptyString, s)
  end.

Definition headIsSpace (s : string) : bool :=
  match s with
  | String c _ => isSpace c
  | EmptyString => false
  end.

(** [s.charAt(0)] and [s.slice(1)]. *)
Definition charAt0 (s : string) : string :=
  match s with
  | EmptyString => EmptyString
  | String c _ => String c EmptyString
  end.

Definition slice1 (s : string) : string :=
  match s with
  | EmptyString => EmptyString
  | String _ r => r
  end.

(** [s.replace(/\.$/, '')]: drop one final full stop. *)
Fixpoint dropFinalDot (s : string) : string :=
  match s with
  | EmptyString => EmptyString
  | String c r =>
      if (code c =? 46)%N && isEmpty r then EmptyString
      else String c (dropFinalDot r)
  end.

(** [words.join(sep)]. *)
Fixpoint join (sep : string) (l : list string) : string :=
  match l with
  | [] => EmptyString
  | [w] => w
  | w :: r => w ++ sep ++ join sep r
  end.

(** [s.split(/\s+/)]: the pieces between the maximal runs of white space
    (a leading or trailing run leaves an empty piece); [inRun] says that
    the previous character was white space. *)
Fixpoint splitSpacesFrom (inRun : bool) (s : string) : list string :=
  match s with
  | EmptyString => [EmptyString]
  | String c r =>
      if isSpace c then
        if inRun then splitSpacesFrom true r
        else EmptyString :: splitSpacesFrom true r
      else
        match splitSpacesFrom false r with
        | w :: ws => String c w :: ws
        | [] => [String c EmptyString]
        end
  end.

Definition splitSpaces (s : string) : list string :=
  splitSpacesFrom false s.

(** [s.split(',')]. *)
Fixpoint splitComma (s : string) : list string :=
  match s with
  | EmptyString => [EmptyString]
  | String c r =>
      if (code c =? 44)%N then EmptyString :: splitComma r
      else
        match splitComma r with
        | w :: ws => String c w :: ws
        | [] => [String c EmptyString]
        end
  end.

(** [hay.includes(needle)]. *)
Fixpoint includes (hay needle : string) : bool :=
  String.prefix needle hay ||
  match hay with
  | EmptyString => false
  | String _ r => includes r needle
  end.

(** [table[key]] on an object literal of string values, and
    [Object.entries(table)] is the list itself. *)
Fixpoint lookup (table : list (string * string)) (key : string)
  : option string :=
  match table with
  | [] => None
  | (k, v) :: r => if String.eqb k key then Some v else lookup r key
  end.

Definition hasOwnProperty (table : list (string * string)) (key : string)
  : bool :=
  match lookup table key with Some _ => true | None => false end.

End Js.

(* ================================================================== *)
(** ** Reference tables ([utils/constants.js]) *)

(** The four lookup tables the parser imports.  Each is an object literal
    from a key to a string; the list keeps the order of its entries.  The
    parser and everything proved about it in general is stated over an
    arbitrary [Constants]. *)
Record Constants : Type := {
  US_STATES : list (string * string);
  STREET_TYPES : list (string * string);
  DIRECTIONS : list (string * string);
  UNIT_TYPES : list (string * string)
}.

Inductive StatusKey : Type := VALID | CORRECTED | UNVERIFIABLE | INVALID.

(** Modelled from the spec: [VALIDATION_STATUS] of [utils/constants.js],
    which is not among the sources; the spec gives the four status values
    as valid, corrected, unverifiable and invalid. *)
Definition VALIDATION_STATUS (k : StatusKey) : string :=
  match k with
  | VALID => "valid"
  | CORRECTED => "corrected"
  | UNVERIFIABLE => "unverifiable"
  | INVALID => "invalid"
  end.

(** Modelled from the spec: [US_STATES] of [utils/constants.js], state code
    to state name; the fifty states and the District of Columbia, in the
    order of the name table of [geocodingService.js]. *)
Definition US_STATES_table : list (string * string) :=
  [ ("AL", "Alabama"); ("AK", "Alaska"); ("AZ", "Arizona");
    ("AR", "Arkansas"); ("CA", "California"); ("CO", "Colorado");
    ("CT", "Connecticut"); ("DE", "Delaware"); ("FL", "Florida");
    ("GA", "Georgia"); ("HI", "Hawaii"); ("ID", "Idaho");
    ("IL", "Illinois"); ("IN", "Indiana"); ("IA", "Iowa");
    ("KS", "Kansas"); ("KY", "Kentucky"); ("LA", "Louisiana");
    ("ME", "Maine"); ("MD", "Maryland"); ("MA", "Massachusetts");
    ("MI", "Michigan"); ("MN", "Minnesota"); ("MS", "Mississippi");
    ("MO", "Missouri"); ("MT", "Montana"); ("NE", "Nebraska");
    ("NV", "Nevada"); ("NH", "New Hampshire"); ("NJ", "New Jersey");
    ("NM", "New Mexico"); ("NY", "New York"); ("NC", "North Carolina");
    ("ND", "North Dakota"); ("OH", "Ohio"); ("OK", "Oklahoma");
    ("OR", "Oregon"); ("PA", "Pennsylvania"); ("RI", "Rhode Island");
    ("SC", "South Carolina"); ("SD", "South Dakota"); ("TN", "Tennessee");
    ("TX", "Texas"); ("UT", "Utah"); ("VT", "Vermont");
    ("VA", "Virginia"); ("WA", "Washington"); ("WV", "West Virginia");
    ("WI", "Wisconsin"); ("WY", "Wyoming");
    ("DC", "District of Columbia") ].

(** Modelled from the spec: [STREET_TYPES] of [utils/constants.js]; the
    spec names the expansions of St and Ave. *)
Definition STREET_TYPES_table : list (string * string) :=
  [ ("st", "Street"); ("ave", "Avenue") ].

(** Modelled from the spec: [DIRECTIONS] of [utils/constants.js]; the spec
    lists the abbreviations N, S, E, W, NE, NW, SE and SW. *)
Definition DIRECTIONS_table : list (string * string) :=
  [ ("n", "North"); ("s", "South"); ("e", "East"); ("w", "West");
    ("ne", "Northeast"); ("nw", "Northwest");
    ("se", "Southeast"); ("sw", "Southwest") ].

(** Modelled from the spec: [UNIT_TYPES] of [utils/constants.js]; the spec
    lists apartment, suite, unit, floor and room, keyed here by the
    designators of the parser's unit pattern. *)
Definition UNIT_TYPES_table : list (string * string) :=
  [ ("apt", "Apt"); ("apartment", "Apt"); ("suite", "Suite");
    ("ste", "Suite"); ("unit", "Unit"); ("floor", "Floor");
    ("fl", "Floor"); ("room", "Room"); ("rm", "Room") ].

Definition constants : Constants := {|
  US_STATES := US_STATES_table;
  STREET_TYPES := STREET_TYPES_table;
  DIRECTIONS := DIRECTIONS_table;
  UNIT_TYPES := UNIT_TYPES_table
|}.

(* ================================================================== *)
(** ** Data model *)

Module Parsed.
(** The object [parseAddress] builds. *)
Record t : Type := mk {
  streetNumber : option string;
  street : option string;
  unit : option string;
  city : option string;
  state : option string;
  zipCode : option string;
  raw : string
}.
End Parsed.

Module Verified.
(** The object the geocoding service returns ([normalizeNominatimResult]). *)
Record t : Type := mk {
  streetNumber : option string;
  street : option string;
  city : option string;
  state : option string;
  zipCode : option string;
  country : string;
  latitude : float;
  longitude : float;
  confidence : Z;
  displayName : option string;
  placeType : option string;
  importance : option float
}.
End Verified.

Module Correction.
Record t : Type := mk {
  field : string;
  original : option string;
  corrected : option string
}.
End Correction.

Module Address.
(** The [address] object of a response. *)
Record t : Type := mk {
  streetNumber : option string;
  street : option string;
  unit : option string;
  city : option string;
  state : option string;
  zipCode : option string;
  formatted : option string
}.
End Address.

Module Coordinates.
Record t : Type := mk { latitude : float; longitude : float }.
End Coordinates.

Module Response.
(** The object [createResponse] builds; a key that is [undefined] or never
    assigned is [None]. *)
Record t : Type := mk {
  status : string;
  input : option string;
  address : option Address.t;
  issues : option (list string);
  corrections : option (list Correction.t);
  coordinates : option Coordinates.t;
  confidence : option Z
}.
End Response.

(* ================================================================== *)
(** ** The address parser ([utils/addressParser.js]) *)

Module Parser.
Import Js.

(** *** Regular-expression matching

    A pattern is tried at every position from the left.  [prevWord] says
    whether the character before the position is a word character, which
    is what [\b] needs to know. *)

Definition headIsWord (s : string) : bool :=
  match s with
  | String c _ => isWord c
  | EmptyString => false
  end.

(** [\b] at a position in front of [s]. *)
Definition boundary (prevWord : bool) (s : string) : bool :=
  xorb prevWord (headIsWord s).

(** The first position at which [m] matches: the text before it and what
    [m] returns there. *)
Fixpoint searchFrom {A : Type} (m : bool -> string -> option A)
    (prevWord : bool) (s : string) : option (string * A) :=
  match m prevWord s with
  | Some a => Some (EmptyString, a)
  | None =>
      match s with
      | EmptyString => None
      | String c r =>
          match searchFrom m (isWord c) r with
          | Some (pre, a) => Some (String c pre, a)
          | None => None
          end
      end
  end.

Definition search {A : Type} (m : bool -> string -> option A) (s : string)
  : option (string * A) :=
  searchFrom m false s.

(** [\d{n}]: exactly the next [n] characters, all digits. *)
Fixpoint takeDigits (n : nat) (s : string) : option (string * string) :=
  match n with
  | O => Some (EmptyString, s)
  | S n' =>
      match s with
      | String c r =>
          if isDigit c then
            match takeDigits n' r with
            | Some (d, rest) => Some (String c d, rest)
            | None => None
            end
          else None
      | EmptyString => None
      end
  end.

(** [/\b(\d{5})(?:-(\d{4}))?\b/] at one position: the two groups and the
    text after the match.  The optional group is tried first and given up
    when the closing [\b] fails after it. *)
Definition zipAt (prevWord : bool) (s : string)
  : option ((string * option string) * string) :=
  if boundary prevWord s then
    match takeDigits 5 s with
    | Some (five, r5) =>
        let plain :=
          if boundary true r5 then Some ((five, None), r5) else None in
        match r5 with
        | String c r =>
            if (code c =? 45)%N then
              match takeDigits 4 r with
              | Some (four, r9) =>
                  if boundary true r9 then Some ((five, Some four), r9)
                  else plain
              | None => plain
              end
            else plain
        | EmptyString => plain
        end
    | None => None
    end
  else None.

(** [/\b([A-Z]{2})\b(?:\s+\d{5})?/i] at one position: group 1.  The
    optional tail decides neither whether the pattern matches nor what
    group 1 holds. *)
Definition abbrevAt (prevWord : bool) (s : string) : option string :=
  match s with
  | String a (String b r) =>
      if boundary prevWord s && isAlpha a && isAlpha b && boundary true r
      then Some (String a (String b EmptyString))
      else None
  | _ => None
  end.

(** A literal matched without regard to case at the start of [s]: the
    text matched and the rest. *)
Fixpoint ciPrefix (pat s : string) : option (string * string) :=
  match pat with
  | EmptyString => Some (EmptyString, s)
  | String p pr =>
      match s with
      | String c r =>
          if Ascii.eqb (upperChar c) (upperChar p) then
            match ciPrefix pr r with
            | Some (m, rest) => Some (String c m, rest)
            | None => None
            end
          else None
      | EmptyString => None
      end
  end.

(** Whether the last character before the end of [m] is a word character,
    [prevWord] standing for the character before [m]. *)
Fixpoint endsInWord (prevWord : bool) (m : string) : bool :=
  match m with
  | EmptyString => prevWord
  | String c r => endsInWord (isWord c) r
  end.

(** [new RegExp(`\\b${pat}\\b`, 'i')] at one position, for a [pat] free of
    pattern metacharacters (state codes and names): the rest after the
    match. *)
Definition wordAt (pat : string) (prevWord : bool) (s : string)
  : option string :=
  if boundary prevWord s then
    match ciPrefix pat s with
    | Some (m, rest) =>
        if boundary (endsInWord prevWord m) rest then Some rest else None
    | None => None
    end
  else None.

(** [s.replace(new RegExp(`\\b${pat}\\b`, 'i'), '')]. *)
Definition removeWord (pat s : string) : string :=
  match search (wordAt pat) s with
  | Some (pre, rest) => pre ++ rest
  | None => s
  end.

(** [s.replace(/\b\d{5}(-\d{4})?\b/, '')]. *)
Definition removeZip (s : string) : string :=
  match search zipAt s with
  | Some (pre, (_, rest)) => pre ++ rest
  | None => s
  end.

(** [s.replace(/\s+/g, ' ')]. *)
Fixpoint collapseSpacesFrom (inRun : bool) (s : string) : string :=
  match s with
  | EmptyString => EmptyString
  | String c r =>
      if isSpace c then
        if inRun then collapseSpacesFrom true r
        else String " " (collapseSpacesFrom true r)
      else String c (collapseSpacesFrom false r)
  end.

Definition collapseSpaces : string -> string := collapseSpacesFrom false.

(** [s.replace(/,\s*/g, ', ')]; [skip] says a comma's white space is being
    passed over. *)
Fixpoint commaSpacingFrom (skip : bool) (s : string) : string :=
  match s with
  | EmptyString => EmptyString
  | String c r =>
      if skip && isSpace c then commaSpacingFrom true r
      else if (code c =? 44)%N
           then String "," (String " " (commaSpacingFrom true r))
           else String c (commaSpacingFrom false r)
  end.

Definition commaSpacing : string -> string := commaSpacingFrom false.

(** The [normalized] text of [parseAddress]:
    [addressString.trim().replace(/\s+/g, ' ').replace(/,\s*/g, ', ')]. *)
Definition normalize (addressString : string) : string :=
  commaSpacing (collapseSpaces (trim addressString)).

(** [i < l.length ? l[i] : undefined] is [nth_error]; [l.map((x, index) => ...)]
    is [mapiFrom f 0 l]. *)
Fixpoint mapiFrom {A B : Type} (f : Z -> A -> B) (i : Z) (l : list A)
  : list B :=
  match l with
  | [] => []
  | x :: r => f i x :: mapiFrom f (i + 1) r
  end.

(** [word.charAt(0).toUpperCase() + word.slice(1).toLowerCase()]. *)
Definition capitalize (word : string) : string :=
  toUpperCase (charAt0 word) ++ toLowerCase (slice1 word).

Definition isCommaOrSpace (c : ascii) : bool :=
  (code c =? 44)%N || isSpace c.

(** [cleanCityName]. *)
Definition cleanCityName (city : string) : option string :=
  if isEmpty city then None
  else
    let cleaned :=
      dropStart isCommaOrSpace (dropEnd isCommaOrSpace (trim city)) in
    if isEmpty cleaned then None
    else Some (join " " (map capitalize (splitSpaces cleaned))).

(** The designators of the first unit pattern, in the order of its
    alternation. *)
Definition unitDesignators : list string :=
  [ "apt"; "apartment"; "suite"; "ste"; "unit"; "#"; "floor"; "fl";
    "room"; "rm" ].

Definition dropOne (ch : N) (s : string) : string :=
  match s with
  | String c r => if (code c =? ch)%N then r else s
  | EmptyString => s
  end.

(** [(\w+)\s*$]: a run of word characters, then only white space. *)
Definition identToEnd (s : string) : option string :=
  let (w, rest) := span isWord s in
  if isEmpty w then None
  else if isEmpty (trimStart rest) then Some w else None.

(** [\.?\s*#?\s*(\w+)\s*$] on what follows a designator: group 2.  The
    classes involved are disjoint, so the greedy reading is the only one. *)
Definition unitTail (t : string) : option string :=
  identToEnd (trimStart (dropOne 35 (trimStart (dropOne 46 t)))).

Fixpoint tryDesignators (alts : list string) (s : string)
  : option (string * string) :=
  match alts with
  | [] => None
  | alt :: more =>
      match ciPrefix alt s with
      | Some (g1, rest) =>
          match unitTail rest with
          | Some g2 => Some (g1, g2)
          | None => tryDesignators more s
          end
      | None => tryDesignators more s
      end
  end.

(** [/\b(apt|apartment|suite|ste|unit|#|floor|fl|room|rm)\.?\s*#?\s*(\w+)\s*$/i]
    at one position: groups 1 and 2. *)
Definition unitAt1 (prevWord : bool) (s : string)
  : option (string * option string) :=
  if boundary prevWord s then
    match tryDesignators unitDesignators s with
    | Some (g1, g2) => Some (g1, Some g2)
    | None => None
    end
  else None.

(** [/\s+#(\w+)\s*$/i] at one position: group 1 (there is no group 2). *)
Definition unitAt2 (_ : bool) (s : string)
  : option (string * option string) :=
  match s with
  | String c r =>
      if isSpace c then
        match trimStart r with
        | String h t =>
            if (code h =? 35)%N then
              match identToEnd t with
              | Some w => Some (w, None)
              | None => None
              end
            else None
        | EmptyString => None
        end
      else None
  | EmptyString => None
  end.

Definition unitPatterns
  : list (bool -> string -> option (string * option string)) :=
  [ unitAt1; unitAt2 ].

(** [/^(\d+[-\d]*[a-zA-Z]?)\s+/]: group 1 and the text after the match. *)
Definition isNumberBody (c : ascii) : bool :=
  isDigit c || (code c =? 45)%N.

Definition numberMatch (working : string) : option (string * string) :=
  match working with
  | String c _ =>
      if isDigit c then
        let (body, r1) := span isNumberBody working in
        let (letter, r2) :=
          match r1 with
          | String l r =>
              if isAlpha l then (String l EmptyString, r)
              else (EmptyString, r1)
          | EmptyString => (EmptyString, r1)
          end in
        match r2 with
        | String w _ =>
            if isSpace w then Some (body ++ letter, trimStart r2)
            else None
        | EmptyString => None
        end
      else None
  | EmptyString => None
  end.

Module StreetResult.
(** The object [parseStreetAddress] builds. *)
Record t : Type := mk {
  number : option string;
  street : option string;
  unit : option string
}.
End StreetResult.

Section WithConstants.

Variable K : Constants.

(** [normalizeUnitType]. *)
Definition normalizeUnitType (type : string) : string :=
  let lower := dropFinalDot (toLowerCase type) in
  match orNull (lookup (UNIT_TYPES K) lower) with
  | Some u => u
  | None => "Unit"
  end.

(** The body of the callback of [words.map] in [normalizeStreetName], given
    the outcome of its two tests on the position of the word: [atEdge] is
    [index === 0 || index === words.length - 1] and [nearEnd] is
    [index === words.length - 1 || index === words.length - 2]. *)
Definition normalizeWordAt (atEdge nearEnd : bool) (word : string) : string :=
  let lower := dropFinalDot (toLowerCase word) in
  let direction :=
    if atEdge then orNull (lookup (DIRECTIONS K) lower) else None in
  match direction with
  | Some d => d
  | None =>
      let streetType :=
        if nearEnd then orNull (lookup (STREET_TYPES K) lower) else None in
      match streetType with
      | Some t => t
      | None => capitalize word
      end
  end.

(** The callback itself; [len] is [words.length]. *)
Definition normalizeWord (len : Z) (index : Z) (word : string) : string :=
  normalizeWordAt ((index =? 0)%Z || (index =? len - 1)%Z)
                  ((index =? len - 1)%Z || (index =? len - 2)%Z) word.

(** [normalizeStreetName]. *)
Definition normalizeStreetName (street : option string) : option string :=
  match street with
  | None => None
  | Some s =>
      if isEmpty s then None
      else
        let normalized := trim s in
        let words := splitSpaces normalized in
        let normalizedWords :=
          mapiFrom (normalizeWord (Z.of_nat (List.length words))) 0 words in
        Some (join " " normalizedWords)
  end.

(** The loop over [unitPatterns] in [parseStreetAddress]: the unit and the
    working string after the first pattern that matches. *)
Fixpoint extractUnit
    (patterns : list (bool -> string -> option (string * option string)))
    (working : string) : option string * string :=
  match patterns with
  | [] => (None, working)
  | pattern :: more =>
      match search pattern working with
      | Some (before, (g1, g2)) =>
          let unitType :=
            if truthy (Some g1) then normalizeUnitType g1 else "Unit" in
          let unitNumber :=
            match orNull g2 with Some n => n | None => g1 end in
          (Some (trim (unitType ++ " " ++ unitNumber)), trim before)
      | None => extractUnit more working
      end
  end.

(** [parseStreetAddress]. *)
Definition parseStreetAddress (streetPart : string)
  : StreetResult.t :=
  if isEmpty streetPart then StreetResult.mk None None None
  else
    let (unit, working) := extractUnit unitPatterns streetPart in
    let (number, working) :=
      match numberMatch working with
      | Some (n, rest) => (Some n, rest)
      | None => (None, working)
      end in
    StreetResult.mk number (normalizeStreetName (Some working)) unit.

(** The loop over [Object.entries(US_STATES)] in [extractState]. *)
Fixpoint findStateName (entries : list (string * string))
    (addressLower : string) : option (string * string) :=
  match entries with
  | [] => None
  | (abbrev, name) :: more =>
      if includes addressLower (toLowerCase name) then Some (abbrev, name)
      else findStateName more addressLower
  end.

(** [extractState]: the pair is the [abbreviation] and the [name] of the
    object it returns. *)
Definition extractState (address : string) : option (string * string) :=
  let byName := findStateName (US_STATES K) (toLowerCase address) in
  match search abbrevAt address with
  | Some (_, g1) =>
      let abbrev := toUpperCase g1 in
      match orNull (lookup (US_STATES K) abbrev) with
      | Some name => Some (abbrev, name)
      | None => byName
      end
  | None => byName
  end.

(** [extractCity]. *)
Definition extractCity (part : string) (knownState : option string)
  : option string :=
  if isEmpty part then None
  else
    let city := part in
    let city :=
      match orNull knownState with
      | Some st => removeWord st city
      | None => city
      end in
    let city := removeZip city in
    let city :=
      fold_left
        (fun city entry => removeWord (snd entry) (removeWord (fst entry) city))
        (US_STATES K) city in
    cleanCityName city.

(** The body of [parseAddress] once the input is known to be a non-empty
    string. *)
Definition parseString (addressString : string) : Parsed.t :=
  let normalized := normalize addressString in
  let zipCode :=
    match search zipAt normalized with
    | Some (_, ((five, Some four), _)) => Some (five ++ "-" ++ four)
    | Some (_, ((five, None), _)) => Some five
    | None => None
    end in
  let state :=
    match extractState normalized with
    | Some (abbreviation, _) => Some abbreviation
    | None => None
    end in
  let parts := map trim (splitComma normalized) in
  let streetResult :=
    match nth_error parts 0 with
    | Some streetPart => parseStreetAddress streetPart
    | None => StreetResult.mk None None None
    end in
  let city :=
    match nth_error parts 1 with
    | Some cityStatePart => orNull (extractCity cityStatePart state)
    | None => None
    end in
  let city :=
    match nth_error parts 1 with
    | Some second =>
        if (3 <=? List.length parts)%nat && negb (truthy city)
        then cleanCityName second else city
    | None => city
    end in
  {| Parsed.streetNumber := StreetResult.number streetResult;
     Parsed.street := StreetResult.street streetResult;
     Parsed.unit := StreetResult.unit streetResult;
     Parsed.city := city;
     Parsed.state := state;
     Parsed.zipCode := zipCode;
     Parsed.raw := addressString |}.

(** [parseAddress]: null for a falsy value and for a value that is not a
    string. *)
Definition parseAddress (addressString : Js.value) : option Parsed.t :=
  match addressString with
  | VString s => if isEmpty s then None else Some (parseString s)
  | _ => None
  end.

(** [isValidState]. *)
Definition isValidState (state : option string) : bool :=
  match state with
  | Some s =>
      if isEmpty s then false
      else hasOwnProperty (US_STATES K) (toUpperCase s)
  | None => false
  end.

End WithConstants.

(** [isValidZipCode]: [/^\d{5}(-\d{4})?$/]. *)
Definition isValidZipCode (zip : option string) : bool :=
  match zip with
  | Some z =>
      match takeDigits 5 z with
      | Some (_, EmptyString) => true
      | Some (_, String c r) =>
          if (code c =? 45)%N then
            match takeDigits 4 r with
            | Some (_, EmptyString) => true
            | _ => false
            end
          else false
      | None => false
      end
  | None => false
  end.

End Parser.

(* ================================================================== *)
(** ** The validation service ([services/addressValidationService.js]) *)

Module Service.
Import Js.

(** [list.push(x)]. *)
Definition push {A : Type} (l : list A) (x : A) : list A := l ++ [x].

(** [if (x) list.push(x)] for a string-or-null [x]. *)
Definition pushIfTruthy (l : list string) (x : option string) : list string :=
  match orNull x with
  | Some s => push l s
  | None => l
  end.

(** [normalizeForComparison]: [str.toLowerCase().replace(/[^a-z0-9]/g, '')]. *)
Definition normalizeForComparison (str : option string) : string :=
  match orNull str with
  | None => EmptyString
  | Some s => sfilter (fun c => isLower c || isDigit c) (toLowerCase s)
  end.

(** [zip.replace(/-\d{4}$/, '')]. *)
Fixpoint stripPlus4 (zip : string) : string :=
  match zip with
  | EmptyString => EmptyString
  | String c r =>
      let isExtension :=
        (code c =? 45)%N &&
        match Parser.takeDigits 4 r with
        | Some (_, EmptyString) => true
        | _ => false
        end in
      if isExtension then EmptyString else String c (stripPlus4 r)
  end.

(** [normalizeZip]. *)
Definition normalizeZip (zip : option string) : string :=
  match orNull zip with
  | None => EmptyString
  | Some z => stripPlus4 z
  end.

(** The object [determineStatus] returns. *)
Record StatusResult : Type := {
  status : string;
  corrections : list Correction.t
}.

(** [determineStatus]: the five comparisons in the order of the source,
    each pushing onto [corrections], then the status. *)
Definition determineStatus (parsed : Parsed.t) (geocoded : Verified.t)
  : StatusResult :=
  let corrections : list Correction.t := [] in
  let corrections :=
    if truthy (Verified.streetNumber geocoded) &&
       negb (strictEq (Parsed.streetNumber parsed)
                      (Verified.streetNumber geocoded))
    then push corrections
           (Correction.mk "streetNumber" (Parsed.streetNumber parsed)
                          (Verified.streetNumber geocoded))
    else corrections in
  let corrections :=
    if truthy (Verified.street geocoded) &&
       negb (String.eqb (normalizeForComparison (Parsed.street parsed))
                        (normalizeForComparison (Verified.street geocoded)))
    then push corrections
           (Correction.mk "street" (Parsed.street parsed)
                          (Verified.street geocoded))
    else corrections in
  let corrections :=
    if truthy (Verified.city geocoded) &&
       negb (String.eqb (normalizeForComparison (Parsed.city parsed))
                        (normalizeForComparison (Verified.city geocoded)))
    then push corrections
           (Correction.mk "city" (Parsed.city parsed)
                          (Verified.city geocoded))
    else corrections in
  let corrections :=
    if truthy (Verified.state geocoded) &&
       negb (strictEq (option_map toUpperCase (Parsed.state parsed))
                      (option_map toUpperCase (Verified.state geocoded)))
    then push corrections
           (Correction.mk "state" (Parsed.state parsed)
                          (Verified.state geocoded))
    else corrections in
  let corrections :=
    if truthy (Verified.zipCode geocoded) &&
       negb (String.eqb (normalizeZip (Parsed.zipCode parsed))
                        (normalizeZip (Verified.zipCode geocoded)))
    then push corrections
           (Correction.mk "zipCode" (Parsed.zipCode parsed)
                          (Verified.zipCode geocoded))
    else corrections in
  let status :=
    if (List.length corrections =? 0)%nat then VALIDATION_STATUS VALID
    else if (70 <=? Verified.confidence geocoded)%Z
         then VALIDATION_STATUS CORRECTED
         else VALIDATION_STATUS UNVERIFIABLE in
  {| status := status; corrections := corrections |}.

(** [list[list.length - 1] += suffix]. *)
Fixpoint appendToLast (l : list string) (suffix : string) : list string :=
  match l with
  | [] => []
  | [x] => [x ++ suffix]
  | x :: r => x :: appendToLast r suffix
  end.

(** [formatAddress]. *)
Definition formatAddress (components : Verified.t) (unit : option string)
  : option string :=
  let parts : list string := [] in
  let streetParts : list string := [] in
  let streetParts := pushIfTruthy streetParts (Verified.streetNumber components) in
  let streetParts := pushIfTruthy streetParts (Verified.street components) in
  let streetParts := pushIfTruthy streetParts unit in
  let parts :=
    if (0 <? List.length streetParts)%nat
    then push parts (join " " streetParts) else parts in
  let cityStateZip : list string := [] in
  let cityStateZip := pushIfTruthy cityStateZip (Verified.city components) in
  let cityStateZip :=
    match orNull (Verified.state components) with
    | Some st =>
        let cityStateZip :=
          if (0 <? List.length cityStateZip)%nat
          then appendToLast cityStateZip "," else cityStateZip in
        push cityStateZip st
    | None => cityStateZip
    end in
  let cityStateZip := pushIfTruthy cityStateZip (Verified.zipCode components) in
  let parts :=
    if (0 <? List.length cityStateZip)%nat
    then push parts (join " " cityStateZip) else parts in
  orNull (Some (join ", " parts)).

(** [createResponse]; a caller that leaves [issues] or [corrections] out
    passes the default [[]]. *)
Definition createResponse (status : string) (parsed : option Parsed.t)
    (geocoded : option Verified.t) (issues : list string)
    (corrections : list Correction.t) : Response.t :=
  let input := orNull (option_map Parsed.raw parsed) in
  let issuesKey :=
    if (0 <? List.length issues)%nat then Some issues else None in
  let correctionsKey :=
    if (0 <? List.length corrections)%nat then Some corrections else None in
  let parsedUnit :=
    match parsed with
    | Some p => Parsed.unit p
    | None => None
    end in
  match geocoded with
  | Some g =>
      {| Response.status := status;
         Response.input := input;
         Response.address :=
           Some {| Address.streetNumber := Verified.streetNumber g;
                   Address.street := Verified.street g;
                   Address.unit := orNull parsedUnit;
                   Address.city := Verified.city g;
                   Address.state := Verified.state g;
                   Address.zipCode := Verified.zipCode g;
                   Address.formatted := formatAddress g parsedUnit |};
         Response.issues := issuesKey;
         Response.corrections := correctionsKey;
         Response.coordinates :=
           Some {| Coordinates.latitude := Verified.latitude g;
                   Coordinates.longitude := Verified.longitude g |};
         Response.confidence := Some (Verified.confidence g) |}
  | None =>
      let address :=
        match parsed with
        | Some p =>
            if String.eqb status (VALIDATION_STATUS UNVERIFIABLE) then
              Some {| Address.streetNumber := Parsed.streetNumber p;
                      Address.street := Parsed.street p;
                      Address.unit := Parsed.unit p;
                      Address.city := Parsed.city p;
                      Address.state := Parsed.state p;
                      Address.zipCode := Parsed.zipCode p;
                      Address.formatted := None |}
            else None
        | None => None
        end in
      {| Response.status := status;
         Response.input := input;
         Response.address := address;
         Response.issues := issuesKey;
         Response.corrections := correctionsKey;
         Response.coordinates := None;
         Response.confidence := None |}
  end.

(** [hasMinimumComponents]. *)
Definition hasMinimumComponents (parsed : Parsed.t) : bool :=
  truthy (Parsed.street parsed) || truthy (Parsed.city parsed).

Definition orEmpty (o : option string) : string :=
  match o with Some s => s | None => EmptyString end.

Definition isSome {A : Type} (o : option A) : bool :=
  match o with Some _ => true | None => false end.

(** [finalResult.country && finalResult.country !== 'US']: the verified
    address names a country, and it is not "US". *)
Definition outsideUS (v : Verified.t) : bool :=
  negb (isEmpty (Verified.country v)) &&
  negb (String.eqb (Verified.country v) "US").

Section WithCollaborators.

Variable K : Constants.

(** The geocoding service ([services/geocodingService.js]), an external
    collaborator: each function answers with a verified address or null.
    [geocodeAddress] is handed the caller's input as it came. *)
Variable geocodeAddress : Js.value -> option Verified.t.
Variable structuredSearch : Parsed.t -> option Verified.t.

(** [handleUnverifiableAddress]. *)
Definition handleUnverifiableAddress (parsed : Parsed.t) : Response.t :=
  let issues : list string := [] in
  let issues :=
    if negb (truthy (Parsed.streetNumber parsed))
    then push issues "Street number could not be determined" else issues in
  let issues :=
    if negb (truthy (Parsed.street parsed))
    then push issues "Street name could not be determined" else issues in
  let issues :=
    if negb (truthy (Parsed.city parsed))
    then push issues "City could not be determined" else issues in
  let issues :=
    if negb (truthy (Parsed.state parsed))
    then push issues "State could not be determined"
    else if negb (Parser.isValidState K (Parsed.state parsed))
         then push issues ("Invalid state: " ++ orEmpty (Parsed.state parsed))
         else issues in
  let issues :=
    if negb (truthy (Parsed.zipCode parsed))
    then push issues "ZIP code could not be determined"
    else if negb (Parser.isValidZipCode (Parsed.zipCode parsed))
         then push issues
                ("Invalid ZIP code format: " ++ orEmpty (Parsed.zipCode parsed))
         else issues in
  let hasBasicComponents :=
    truthy (Parsed.street parsed) || truthy (Parsed.city parsed) in
  let status :=
    if hasBasicComponents then VALIDATION_STATUS UNVERIFIABLE
    else VALIDATION_STATUS INVALID in
  createResponse status (Some parsed) None issues [].

Definition notInUS : string :=
  "Address is not in the United States. This service only validates US addresses.".

(** Steps 2 and 3 of [validateAddress]: the answer to the free-text
    lookup or, when there is none and the parsed address has a street or a
    city, the answer to the structured search. *)
Definition finalResult (addressInput : Js.value) (parsed : Parsed.t)
  : option Verified.t :=
  let geocoded := geocodeAddress addressInput in
  if negb (isSome geocoded) && hasMinimumComponents parsed
  then structuredSearch parsed
  else geocoded.

(** [validateAddress]; the two awaited lookups happen one after the other. *)
Definition validateAddress (addressInput : Js.value) : Response.t :=
  match Parser.parseAddress K addressInput with
  | None =>
      createResponse (VALIDATION_STATUS INVALID) None None
        ["Could not parse address input"] []
  | Some parsed =>
      match finalResult addressInput parsed with
      | None => handleUnverifiableAddress parsed
      | Some final =>
          if outsideUS final
          then createResponse (VALIDATION_STATUS INVALID) (Some parsed)
                 (Some final) [notInUS] []
          else
            let r := determineStatus parsed final in
            createResponse (status r) (Some parsed) (Some final) []
              (corrections r)
      end
  end.

End WithCollaborators.

End Service.

(* ================================================================== *)
(** ** The comparison rules, as the specification words them *)

Module Rules.
Import Js.

(** The fields the reconciler compares. *)
Inductive Field : Type := streetNumber | street | city | state | zipCode.

(** The fixed evaluation order. *)
Definition evaluationOrder : list Field :=
  [ streetNumber; street; city; state; zipCode ].

Definition name (f : Field) : string :=
  match f with
  | streetNumber => "streetNumber"
  | street => "street"
  | city => "city"
  | state => "state"
  | zipCode => "zipCode"
  end.

Definition parsed (f : Field) (p : Parsed.t) : option string :=
  match f with
  | streetNumber => Parsed.streetNumber p
  | street => Parsed.street p
  | city => Parsed.city p
  | state => Parsed.state p
  | zipCode => Parsed.zipCode p
  end.

Definition verified (f : Field) (v : Verified.t) : option string :=
  match f with
  | streetNumber => Verified.streetNumber v
  | street => Verified.street v
  | city => Verified.city v
  | state => Verified.state v
  | zipCode => Verified.zipCode v
  end.

(** A verified value is absent when it is null or empty. *)
Definition present (o : option string) : bool := truthy o.

(** The text of a value, an absent one having none. *)
Definition text (o : option string) : string :=
  match o with Some s => s | None => EmptyString end.

Definition isAlnum (c : ascii) : bool := isAlpha c || isDigit c.

(** Case-insensitive equality of two strings. *)
Definition sameIgnoringCase (a b : string) : bool :=
  String.eqb (toLowerCase a) (toLowerCase b).

(** A string without its characters that are neither letters nor digits. *)
Definition stripNonAlnum (s : string) : string := sfilter isAlnum s.

(** A trailing [-NNNN] extension: a hyphen and four digits. *)
Definition isExtension (e : string) : bool :=
  match e with
  | String c d =>
      (code c =? 45)%N && sforall isDigit d && (String.length d =? 4)%nat
  | EmptyString => false
  end.

(** A ZIP code without its trailing [-NNNN] extension, if it has one. *)
Definition stripExtension (z : string) : string :=
  let n := String.length z in
  if (5 <=? n)%nat && isExtension (substring (n - 5) 5 z)
  then substring 0 (n - 5) z
  else z.

(** Whether the parsed value [a] and the verified value [b] of field [f]
    agree: exact equality for the street number; equality of the letters
    and digits, whatever their case, for street and city; equality whatever
    the case for the state; equality without the [-NNNN] extension for the
    ZIP code.  A parsed value that is absent never equals a street number
    or a state, and counts as the empty text elsewhere. *)
Definition agree (f : Field) (a b : option string) : bool :=
  match f with
  | streetNumber => strictEq a b
  | street | city =>
      sameIgnoringCase (stripNonAlnum (text a)) (stripNonAlnum (text b))
  | state =>
      match a, b with
      | Some x, Some y => sameIgnoringCase x y
      | None, None => true
      | _, _ => false
      end
  | zipCode => String.eqb (stripExtension (text a)) (stripExtension (text b))
  end.

(** A field differs when its verified value is present and does not agree
    with the parsed one. *)
Definition differs (p : Parsed.t) (v : Verified.t) (f : Field) : bool :=
  present (verified f v) && negb (agree f (parsed f p) (verified f v)).

(** The fields that differ, in the evaluation order. *)
Definition differing (p : Parsed.t) (v : Verified.t) : list Field :=
  filter (differs p v) evaluationOrder.

(** A standalone two-letter token of [s]: two letters with a word boundary
    on either side. *)
Definition standaloneToken (s tok : string) : Prop :=
  exists pre suf : string,
    s = pre ++ tok ++ suf /\
    String.length tok = 2 /\
    sforall isAlpha tok = true /\
    Parser.endsInWord false pre = false /\
    Parser.headIsWord suf = false.

(** A recognized state code: a key of the state table. *)
Definition isStateCode (K : Constants) (code : string) : Prop :=
  exists name : string, In (code, name) (US_STATES K).

(** A full state name occurs in [s], whatever the case. *)
Definition namesState (K : Constants) (s : string) : Prop :=
  exists code name : string,
    In (code, name) (US_STATES K) /\
    includes (toLowerCase s) (toLowerCase name) = true.

(** A street name that is not empty but has white space only. *)
Definition isBlank (x : option string) : bool :=
  match x with
  | Some s => negb (isEmpty s) && isEmpty (trim s)
  | None => false
  end.

Definition noSpace (w : string) : bool :=
  sforall (fun c => negb (isSpace c)) w.

(** A word: not empty and free of white space. *)
Definition good (w : string) : Prop :=
  w <> EmptyString /\ noSpace w = true.

(** An expansion is settled when it is a single word that the normalizer
    leaves as it is wherever it stands (an empty expansion is never used). *)
Definition settled (K : Constants) (v : string) : bool :=
  isEmpty v ||
  (noSpace v &&
   forallb
     (fun pos : bool * bool =>
        String.eqb (Parser.normalizeWordAt K (fst pos) (snd pos) v) v)
     [ (true, true); (true, false); (false, true); (false, false) ]).

(** The expansions of the direction and street-type tables are settled. *)
Definition tablesSettled (K : Constants) : bool :=
  forallb (fun entry => settled K (snd entry))
          (DIRECTIONS K ++ STREET_TYPES K).

(** The correction of a field. *)
Definition correctionFor (p : Parsed.t) (v : Verified.t) (f : Field)
  : Correction.t :=
  Correction.mk (name f) (parsed f p) (verified f v).

End Rules.

(* ================================================================== *)
(** ** Sample answers of the geocoding service *)

Module Sample.

(** What a lookup of the postal code 10001 may answer: no street, the
    city, the state and the ZIP code, in the United States. *)
Definition manhattan : Verified.t := {|
  Verified.streetNumber := None;
  Verified.street := None;
  Verified.city := Some "New York";
  Verified.state := Some "NY";
  Verified.zipCode := Some "10001";
  Verified.country := "US";
  Verified.latitude := 40.75%float;
  Verified.longitude := (-74)%float;
  Verified.confidence := 38;
  Verified.displayName := Some "New York, 10001, United States";
  Verified.placeType := Some "postcode";
  Verified.importance := Some 0.5%float
|}.

(** An address in Canada. *)
Definition toronto : Verified.t := {|
  Verified.streetNumber := Some "100";
  Verified.street := Some "Queen Street West";
  Verified.city := Some "Toronto";
  Verified.state := Some "Ontario";
  Verified.zipCode := Some "M5H 2N2";
  Verified.country := "CA";
  Verified.latitude := 43.65625%float;
  Verified.longitude := (-79.375)%float;
  Verified.confidence := 88;
  Verified.displayName := Some "100 Queen Street West, Toronto, Canada";
  Verified.placeType := Some "house";
  Verified.importance := Some 0.75%float
|}.

(** [parseAddress] on a string, with the tables modelled above. *)
Definition parse (s : string) : option Parsed.t :=
  Parser.parseAddress constants (Js.VString s).

(** A service that answers every free-text lookup with [v]. *)
Definition always (v : Verified.t) : Js.value -> option Verified.t :=
  fun _ => Some v.

(** A service that finds nothing. *)
Definition nothing {A : Type} : A -> option Verified.t := fun _ => None.

End Sample.

(* ================================================================== *)
(** ** The geocoding service's state table ([services/geocodingService.js]) *)

Module Geocoding.
Import Js.

(** [stateMap] of [getStateAbbreviation]: lower-case state name to code. *)
Definition stateMap : list (string * string) :=
  [ ("alabama", "AL"); ("alaska", "AK"); ("arizona", "AZ");
    ("arkansas", "AR"); ("california", "CA"); ("colorado", "CO");
    ("connecticut", "CT"); ("delaware", "DE"); ("florida", "FL");
    ("georgia", "GA"); ("hawaii", "HI"); ("idaho", "ID");
    ("illinois", "IL"); ("indiana", "IN"); ("iowa", "IA");
    ("kansas", "KS"); ("kentucky", "KY"); ("louisiana", "LA");
    ("maine", "ME"); ("maryland", "MD"); ("massachusetts", "MA");
    ("michigan", "MI"); ("minnesota", "MN"); ("mississippi", "MS");
    ("missouri", "MO"); ("montana", "MT"); ("nebraska", "NE");
    ("nevada", "NV"); ("new hampshire", "NH"); ("new jersey", "NJ");
    ("new mexico", "NM"); ("new york", "NY"); ("north carolina", "NC");
    ("north dakota", "ND"); ("ohio", "OH"); ("oklahoma", "OK");
    ("oregon", "OR"); ("pennsylvania", "PA"); ("rhode island", "RI");
    ("south carolina", "SC"); ("south dakota", "SD"); ("tennessee", "TN");
    ("texas", "TX"); ("utah", "UT"); ("vermont", "VT");
    ("virginia", "VA"); ("washington", "WA"); ("west virginia", "WV");
    ("wisconsin", "WI"); ("wyoming", "WY");
    ("district of columbia", "DC") ].

(** [getStateAbbreviation]. *)
Definition getStateAbbreviation (stateName : option string) : option string :=
  match orNull stateName with
  | None => None
  | Some name =>
      if (String.length name =? 2)%nat then Some (toUpperCase name)
      else
        match orNull (lookup stateMap (toLowerCase name)) with
        | Some abbreviation => Some abbreviation
        | None => Some name
        end
  end.

(** The [address] object of a Nominatim result, with the keys the service
    reads; a key that is missing is [None]. *)
Record NominatimAddress : Type := {
  house_number : option string;
  road : option string;
  pedestrian : option string;
  street : option string;
  city : option string;
  town : option string;
  village : option string;
  municipality : option string;
  hamlet : option string;
  state : option string;
  postcode : option string;
  country_code : option string
}.

(** A Nominatim result. *)
Record NominatimResult : Type := {
  address : option NominatimAddress;
  lat : option string;
  lon : option string;
  display_name : option string;
  type : option string;
  importance : option float
}.

(** [result.address || {}]. *)
Definition noAddress : NominatimAddress :=
  Build_NominatimAddress None None None None None None None None None None
    None None.

(** [a || b || ... || null] on strings-or-null. *)
Fixpoint firstTruthy (l : list (option string)) : option string :=
  match l with
  | [] => None
  | x :: r => if truthy x then x else firstTruthy r
  end.

Section NominatimNumbers.

(** The two numeric steps of [normalizeNominatimResult], taken as given:
    [parseFloat] on a coordinate and [calculateConfidence] on the
    result. *)
Variable parseFloat : option string -> float.
Variable calculateConfidence : NominatimResult -> Z.

(** [normalizeNominatimResult]. *)
Definition normalizeNominatimResult (result : NominatimResult)
  : Verified.t :=
  let addr :=
    match address result with Some a => a | None => noAddress end in
  let streetNumber := firstTruthy [house_number addr] in
  let street := firstTruthy [road addr; pedestrian addr; street addr] in
  let city :=
    firstTruthy
      [city addr; town addr; village addr; municipality addr; hamlet addr] in
  let state := getStateAbbreviation (state addr) in
  let zipCode := firstTruthy [postcode addr] in
  {| Verified.streetNumber := streetNumber;
     Verified.street := street;
     Verified.city := city;
     Verified.state := state;
     Verified.zipCode := zipCode;
     Verified.country :=
       match orNull (option_map toUpperCase (country_code addr)) with
       | Some country => country
       | None => "US"
       end;
     Verified.latitude := parseFloat (lat result);
     Verified.longitude := parseFloat (lon result);
     Verified.confidence := calculateConfidence result;
     Verified.displayName := display_name result;
     Verified.placeType := type result;
     Verified.importance := importance result |}.

End NominatimNumbers.

End Geocoding.

(* ================================================================== *)
(** ** The request handler ([controllers/addressController.js]) *)

Module Controller.

(** [validateAddressHandler], given the result of [validateAddress]: the
    HTTP status and the JSON body it sends. *)
Definition respond (result : Response.t) : Z * Response.t :=
  let httpStatus := 200%Z in
  let httpStatus :=
    if String.eqb (Response.status result) "invalid" then 422%Z
    else httpStatus in
  (httpStatus, result).

Definition validateAddressHandler (K : Constants)
    (geocodeAddress : Js.value -> option Verified.t)
    (structuredSearch : Parsed.t -> option Verified.t)
    (address : Js.value) : Z * Response.t :=
  respond (Service.validateAddress K geocodeAddress structuredSearch address).

End Controller.

(* ================================================================== *)
(** ** Shapes of text, for stating what the parser produces *)

Module Shape.
Import Js.

(** Exactly [n] digits. *)
Definition digits (n : nat) (d : string) : Prop :=
  String.length d = n /\ sforall isDigit d = true.

(** Five digits, or five digits, a hyphen and four digits. *)
Definition zipFormat (z : string) : Prop :=
  digits 5 z \/
  exists d5 d4 : string, z = d5 ++ "-" ++ d4 /\ digits 5 d5 /\ digits 4 d4.

(** [tok] stands in [s] between two word boundaries. *)
Definition standalone (s tok : string) : Prop :=
  exists pre suf : string,
    s = pre ++ tok ++ suf /\
    Parser.endsInWord false pre = false /\
    Parser.headIsWord suf = false.

(** A field is null or a string that is not empty. *)
Definition nullOrNonEmpty (o : option string) : Prop :=
  o <> Some EmptyString.

(** The state codes of the table are not empty and in upper case. *)
Definition codesUpper (K : Constants) : bool :=
  forallb
    (fun entry =>
       negb (isEmpty (fst entry)) &&
       String.eqb (toUpperCase (fst entry)) (fst entry))
    (US_STATES K).

(** The message for a field the parser left absent. *)
Definition missing (o : option string) (message : string) : list string :=
  if truthy o then [] else [message].

(** Two letters, and a two-letter token of [s] between the text [pre]
    before it and the text [suf] after it, with a word boundary on either
    side. *)
Definition twoLetters (tok : string) : Prop :=
  String.length tok = 2 /\ sforall isAlpha tok = true.

Definition tokenAt (s pre tok suf : string) : Prop :=
  s = pre ++ tok ++ suf /\ twoLetters tok /\
  Parser.endsInWord false pre = false /\ Parser.headIsWord suf = false.

(** The first two-letter token of [s]: no other starts before it. *)
Definition firstToken (s pre tok suf : string) : Prop :=
  tokenAt s pre tok suf /\
  forall pre1 tok1 suf1,
    tokenAt s pre1 tok1 suf1 -> String.length pre <= String.length pre1.

(** The shape of a street number: digits and hyphens after a first digit,
    then at most one letter. *)
Definition streetNumberShape (n : string) : Prop :=
  exists (c : ascii) (body letter : string),
    n = String c body ++ letter /\
    isDigit c = true /\
    sforall Parser.isNumberBody body = true /\
    (letter = EmptyString \/
     exists l, letter = String l EmptyString /\ isAlpha l = true).

(** The only white space of [s] is the space character, no two spaces are
    adjacent and, [prevSpace] being true, [s] does not start with one. *)
Fixpoint singleSpaced (prevSpace : bool) (s : string) : bool :=
  match s with
  | EmptyString => true
  | String c r =>
      if isSpace c
      then (code c =? 32)%N && negb prevSpace && singleSpaced true r
      else singleSpaced false r
  end.

(** Every comma of [s] is followed by a space. *)
Fixpoint commasSpaced (s : string) : bool :=
  match s with
  | EmptyString => true
  | String c r =>
      (if (code c =? 44)%N
       then match r with
            | String d _ => (code d =? 32)%N
            | EmptyString => false
            end
       else true) && commasSpaced r
  end.

(** The components of a parsed address, its [raw] text apart. *)
Definition components (p : Parsed.t)
  : list (option string) :=
  [ Parsed.streetNumber p; Parsed.street p; Parsed.unit p; Parsed.city p;
    Parsed.state p; Parsed.zipCode p ].

End Shape.

(* ================================================================== *)
(** * Properties *)

(** ** The model on the addresses of the repository's tests

    [tests/addressParser.test.js], with the tables modelled above. *)

Example parses_a_complete_US_address :
  Sample.parse "123 Main Street, New York, NY 10001"
  = Some (Parsed.mk (Some "123") (Some "Main Street") None (Some "New York")
            (Some "NY") (Some "10001")
            "123 Main Street, New York, NY 10001").
Proof. vm_compute. reflexivity. Qed.

Example parses_address_with_apartment :
  Sample.parse "456 Oak Ave Apt 2B, Los Angeles, CA 90001"
  = Some (Parsed.mk (Some "456") (Some "Oak Avenue") (Some "Apt 2B")
            (Some "Los Angeles") (Some "CA") (Some "90001")
            "456 Oak Ave Apt 2B, Los Angeles, CA 90001").
Proof. vm_compute. reflexivity. Qed.

Example parses_address_with_suite :
  Sample.parse "789 Broadway Suite 100, San Francisco, CA 94102"
  = Some (Parsed.mk (Some "789") (Some "Broadway") (Some "Suite 100")
            (Some "San Francisco") (Some "CA") (Some "94102")
            "789 Broadway Suite 100, San Francisco, CA 94102").
Proof. vm_compute. reflexivity. Qed.

Example normalizes_street_abbreviations :
  option_map Parsed.street (Sample.parse "100 First St, Boston, MA 02101")
  = Some (Some "First Street").
Proof. vm_compute. reflexivity. Qed.

Example handles_ZIP_plus_4_format :
  option_map Parsed.zipCode (Sample.parse "200 Park Ave, New York, NY 10166-0001")
  = Some (Some "10166-0001").
Proof. vm_compute. reflexivity. Qed.

Example handles_missing_components_gracefully :
  Sample.parse "Main Street, Somewhere"
  = Some (Parsed.mk None (Some "Main Street") None (Some "Somewhere") None
            None "Main Street, Somewhere").
Proof. vm_compute. reflexivity. Qed.

Example returns_null_for_empty_input :
  Parser.parseAddress constants (Js.VString EmptyString) = None /\
  Parser.parseAddress constants Js.VNull = None /\
  Parser.parseAddress constants Js.VUndefined = None.
Proof. repeat split. Qed.

Example parses_address_with_directional_prefix :
  Sample.parse "500 N Michigan Ave, Chicago, IL 60611"
  = Some (Parsed.mk (Some "500") (Some "North Michigan Avenue") None
            (Some "Chicago") (Some "IL") (Some "60611")
            "500 N Michigan Ave, Chicago, IL 60611").
Proof. vm_compute. reflexivity. Qed.

Example validates_ZIP_codes :
  map Parser.isValidZipCode
    [ Some "12345"; Some "00000"; Some "99999"; Some "12345-6789";
      Some "1234"; Some "123456"; Some "ABCDE"; Some EmptyString; None ]
  = [ true; true; true; true; false; false; false; false; false ].
Proof. reflexivity. Qed.

Example validates_state_abbreviations :
  map (Parser.isValidState constants)
    [ Some "NY"; Some "CA"; Some "TX"; Some "ny"; Some "XX"; Some "USA";
      Some EmptyString; None ]
  = [ true; true; true; true; false; false; false; false ].
Proof. vm_compute. reflexivity. Qed.

(** ** Characters *)

Ltac each_char c :=
  destruct c as [[|] [|] [|] [|] [|] [|] [|] [|]]; vm_compute; reflexivity.

Lemma lowerChar_filter (c : ascii) :
  Js.isLower (Js.lowerChar c) || Js.isDigit (Js.lowerChar c)
  = Rules.isAlnum c.
Proof. each_char c. Qed.

Lemma lowerChar_upperChar (c : ascii) :
  Js.lowerChar (Js.upperChar c) = Js.lowerChar c.
Proof. each_char c. Qed.

Lemma upperChar_lowerChar (c : ascii) :
  Js.upperChar (Js.lowerChar c) = Js.upperChar c.
Proof. each_char c. Qed.

Lemma lowerChar_idem (c : ascii) :
  Js.lowerChar (Js.lowerChar c) = Js.lowerChar c.
Proof. each_char c. Qed.

Lemma isSpace_upperChar (c : ascii) :
  Js.isSpace (Js.upperChar c) = Js.isSpace c.
Proof. each_char c. Qed.

Lemma isSpace_lowerChar (c : ascii) :
  Js.isSpace (Js.lowerChar c) = Js.isSpace c.
Proof. each_char c. Qed.

(** ** Strings *)

Lemma toLowerCase_toUpperCase (s : string) :
  Js.toLowerCase (Js.toUpperCase s) = Js.toLowerCase s.
Proof.
  unfold Js.toLowerCase, Js.toUpperCase.
  induction s as [|c r IH]; simpl; [reflexivity|].
  now rewrite lowerChar_upperChar, IH.
Qed.

Lemma toUpperCase_toLowerCase (s : string) :
  Js.toUpperCase (Js.toLowerCase s) = Js.toUpperCase s.
Proof.
  unfold Js.toLowerCase, Js.toUpperCase.
  induction s as [|c r IH]; simpl; [reflexivity|].
  now rewrite upperChar_lowerChar, IH.
Qed.

Lemma eqb_upper_lower (x y : string) :
  String.eqb (Js.toUpperCase x) (Js.toUpperCase y)
  = String.eqb (Js.toLowerCase x) (Js.toLowerCase y).
Proof.
  destruct (String.eqb_spec (Js.toUpperCase x) (Js.toUpperCase y)) as [E|E];
    destruct (String.eqb_spec (Js.toLowerCase x) (Js.toLowerCase y)) as [F|F];
    try reflexivity; exfalso.
  - apply F. rewrite <- (toLowerCase_toUpperCase x), E.
    apply toLowerCase_toUpperCase.
  - apply E. rewrite <- (toUpperCase_toLowerCase x), F.
    apply toUpperCase_toLowerCase.
Qed.

Lemma sfilter_toLowerCase (s : string) :
  Js.sfilter (fun c => Js.isLower c || Js.isDigit c) (Js.toLowerCase s)
  = Js.toLowerCase (Js.sfilter Rules.isAlnum s).
Proof.
  unfold Js.toLowerCase, Rules.stripNonAlnum.
  induction s as [|c r IH]; simpl; [reflexivity|].
  rewrite lowerChar_filter.
  destruct (Rules.isAlnum c); simpl; now rewrite IH.
Qed.

Lemma takeDigits_exact (n : nat) (r : string) :
  match Parser.takeDigits n r with
  | Some (_, EmptyString) => true
  | _ => false
  end
  = Js.sforall Js.isDigit r && (String.length r =? n)%nat.
Proof.
  revert r; induction n as [|n IH]; intros [|c r]; simpl; try reflexivity.
  - now rewrite andb_false_r.
  - destruct (Js.isDigit c); simpl; [|reflexivity].
    rewrite <- IH.
    now destruct (Parser.takeDigits n r) as [[d rest]|].
Qed.

Lemma substring_full (s : string) : substring 0 (String.length s) s = s.
Proof. induction s as [|c r IH]; simpl; now rewrite ?IH. Qed.

(** The source's [replace(/-\d{4}$/, '')] strips the trailing extension. *)
Lemma stripPlus4_stripExtension (z : string) :
  Service.stripPlus4 z = Rules.stripExtension z.
Proof.
  induction z as [|c r IH]; [reflexivity|].
  cbn [Service.stripPlus4].
  rewrite takeDigits_exact, IH.
  unfold Rules.stripExtension.
  cbn [String.length].
  destruct (Nat.le_gt_cases 5 (String.length r)) as [Hge|Hlt].
  - replace (S (String.length r) - 5) with (S (String.length r - 5)) by lia.
    cbn [substring].
    replace (String.length r =? 4)%nat with false
      by (symmetry; apply Nat.eqb_neq; lia).
    rewrite andb_false_r, andb_false_r.
    replace (5 <=? S (String.length r))%nat with true
      by (symmetry; apply Nat.leb_le; lia).
    replace (5 <=? String.length r)%nat with true
      by (symmetry; apply Nat.leb_le; lia).
    cbn [andb].
    now destruct (Rules.isExtension _).
  - replace (5 <=? String.length r)%nat with false
      by (symmetry; apply Nat.leb_gt; lia).
    cbn [andb].
    destruct (Nat.eq_dec (String.length r) 4) as [H4|H4].
    + replace (S (String.length r) - 5) with 0 by lia.
      replace 5 with (String.length (String c r)) at 2 by (simpl; lia).
      rewrite substring_full.
      replace (5 <=? S (String.length r))%nat with true
        by (symmetry; apply Nat.leb_le; lia).
      cbn [andb substring Rules.isExtension].
      rewrite andb_assoc.
      now destruct (_ && _).
    + replace (String.length r =? 4)%nat with false
        by (symmetry; apply Nat.eqb_neq; lia).
      rewrite andb_false_r, andb_false_r.
      replace (5 <=? S (String.length r))%nat with false
        by (symmetry; apply Nat.leb_gt; lia).
      reflexivity.
Qed.

(** ** The reconciler *)

Lemma normalizeForComparison_spec (a : option string) :
  Service.normalizeForComparison a
  = Js.toLowerCase (Rules.stripNonAlnum (Rules.text a)).
Proof.
  destruct a as [[|c r]|]; try reflexivity.
  unfold Service.normalizeForComparison; cbn [Js.orNull Js.truthy Js.isEmpty negb].
  apply sfilter_toLowerCase.
Qed.

Lemma normalizeZip_spec (a : option string) :
  Service.normalizeZip a = Rules.stripExtension (Rules.text a).
Proof.
  destruct a as [[|c r]|]; try reflexivity.
  unfold Service.normalizeZip; cbn [Js.orNull Js.truthy Js.isEmpty negb].
  apply stripPlus4_stripExtension.
Qed.

Lemma state_comparison_spec (a b : option string) :
  Js.strictEq (option_map Js.toUpperCase a) (option_map Js.toUpperCase b)
  = Rules.agree Rules.state a b.
Proof.
  destruct a as [x|], b as [y|]; try reflexivity.
  apply eqb_upper_lower.
Qed.

(** Each comparison of [determineStatus] is the rule of its field. *)
Lemma comparison_streetNumber p v :
  Js.truthy (Verified.streetNumber v) &&
  negb (Js.strictEq (Parsed.streetNumber p) (Verified.streetNumber v))
  = Rules.differs p v Rules.streetNumber.
Proof. reflexivity. Qed.

Lemma comparison_street p v :
  Js.truthy (Verified.street v) &&
  negb (String.eqb (Service.normalizeForComparison (Parsed.street p))
                   (Service.normalizeForComparison (Verified.street v)))
  = Rules.differs p v Rules.street.
Proof. now rewrite !normalizeForComparison_spec. Qed.

Lemma comparison_city p v :
  Js.truthy (Verified.city v) &&
  negb (String.eqb (Service.normalizeForComparison (Parsed.city p))
                   (Service.normalizeForComparison (Verified.city v)))
  = Rules.differs p v Rules.city.
Proof. now rewrite !normalizeForComparison_spec. Qed.

Lemma comparison_state p v :
  Js.truthy (Verified.state v) &&
  negb (Js.strictEq (option_map Js.toUpperCase (Parsed.state p))
                    (option_map Js.toUpperCase (Verified.state v)))
  = Rules.differs p v Rules.state.
Proof. now rewrite state_comparison_spec. Qed.

Lemma comparison_zipCode p v :
  Js.truthy (Verified.zipCode v) &&
  negb (String.eqb (Service.normalizeZip (Parsed.zipCode p))
                   (Service.normalizeZip (Verified.zipCode v)))
  = Rules.differs p v Rules.zipCode.
Proof. now rewrite !normalizeZip_spec. Qed.

Ltac to_rules :=
  rewrite ?comparison_streetNumber, ?comparison_street, ?comparison_city,
    ?comparison_state, ?comparison_zipCode.

Ltac split_fields p v :=
  destruct (Rules.differs p v Rules.streetNumber),
    (Rules.differs p v Rules.street), (Rules.differs p v Rules.city),
    (Rules.differs p v Rules.state), (Rules.differs p v Rules.zipCode).

(** The corrections are those of the differing fields, in their order. *)
Lemma corrections_of_differing p v :
  Service.corrections (Service.determineStatus p v)
  = map (Rules.correctionFor p v) (Rules.differing p v).
Proof.
  unfold Service.determineStatus; cbv zeta; cbn [Service.corrections].
  to_rules.
  unfold Rules.differing, Rules.evaluationOrder; cbn [filter].
  split_fields p v; reflexivity.
Qed.

Lemma status_of_corrections p v :
  Service.status (Service.determineStatus p v)
  = match Service.corrections (Service.determineStatus p v) with
    | [] => VALIDATION_STATUS VALID
    | _ :: _ =>
        if (70 <=? Verified.confidence v)%Z
        then VALIDATION_STATUS CORRECTED
        else VALIDATION_STATUS UNVERIFIABLE
    end.
Proof.
  unfold Service.determineStatus; cbv zeta;
    cbn [Service.corrections Service.status].
  to_rules.
  split_fields p v; reflexivity.
Qed.

(** C1: for every parsed address [p] and verified address [v],
    [determineStatus] (the reconciler) answers 'valid' when no field
    differs, so that the comparison yields no correction; 'corrected' when
    some field differs and the confidence of [v] is at least 70; and
    'unverifiable' when some field differs and the confidence is below
    70. *)
Theorem determineStatus_status (p : Parsed.t) (v : Verified.t) :
  let r := Service.determineStatus p v in
  (Service.corrections r = [] <-> Rules.differing p v = []) /\
  (Service.corrections r = [] -> Service.status r = "valid") /\
  (Service.corrections r <> [] -> (70 <= Verified.confidence v)%Z ->
     Service.status r = "corrected") /\
  (Service.corrections r <> [] -> (Verified.confidence v < 70)%Z ->
     Service.status r = "unverifiable").
Proof.
  cbv zeta.
  rewrite status_of_corrections, corrections_of_differing.
  destruct (Rules.differing p v) as [|f fs]; cbn [map].
  - repeat split; intros; try reflexivity; congruence.
  - repeat split; intros; try discriminate.
    + now replace (70 <=? _)%Z with true by (symmetry; apply Z.leb_le; lia).
    + now replace (70 <=? _)%Z with false by (symmetry; apply Z.leb_gt; lia).
Qed.


(** ** The response assembler *)

Lemma length_pos_key {A : Type} (l : list A) :
  (if (0 <? List.length l)%nat then Some l else None)
  = match l with [] => None | _ :: _ => Some l end.
Proof. now destruct l. Qed.

(** C8: when the verified address [g] is present, the address of the
    response takes streetNumber, street, city, state and zipCode from [g],
    its unit from the parsed address (a parsed unit, which is null or a
    non-empty string, is kept as it is), and the response carries the
    coordinates and the confidence of [g]; nothing of the address depends
    on a parsed field other than the unit. *)
Theorem createResponse_verified (status : string) (p : Parsed.t)
    (g : Verified.t) (issues : list string) (cs : list Correction.t) :
  let r := Service.createResponse status (Some p) (Some g) issues cs in
  (exists a : Address.t,
     Response.address r = Some a /\
     Address.streetNumber a = Verified.streetNumber g /\
     Address.street a = Verified.street g /\
     Address.city a = Verified.city g /\
     Address.state a = Verified.state g /\
     Address.zipCode a = Verified.zipCode g /\
     Address.unit a = Js.orNull (Parsed.unit p) /\
     (Parsed.unit p <> Some EmptyString -> Address.unit a = Parsed.unit p)) /\
  Response.coordinates r
  = Some (Coordinates.mk (Verified.latitude g) (Verified.longitude g)) /\
  Response.confidence r = Some (Verified.confidence g) /\
  (forall p' : Parsed.t,
     Parsed.unit p' = Parsed.unit p ->
     Response.address
       (Service.createResponse status (Some p') (Some g) issues cs)
     = Response.address r).
Proof.
  cbv zeta. unfold Service.createResponse; cbn.
  repeat split.
  - eexists. repeat split.
    cbn. intros H. destruct (Parsed.unit p) as [[|c u]|]; try reflexivity.
    now elim H.
  - intros p' ->. reflexivity.
Qed.

(** C9: when the verified address is absent and the status is
    'unverifiable', the address of the response is built from the fields of
    the parsed address, its formatted field is null, and the response has
    neither coordinates nor confidence. *)
Theorem createResponse_unverifiable (p : Parsed.t) (issues : list string)
    (cs : list Correction.t) :
  let r :=
    Service.createResponse (VALIDATION_STATUS UNVERIFIABLE) (Some p) None
      issues cs in
  Response.address r
  = Some (Address.mk (Parsed.streetNumber p) (Parsed.street p)
            (Parsed.unit p) (Parsed.city p) (Parsed.state p)
            (Parsed.zipCode p) None) /\
  Response.coordinates r = None /\
  Response.confidence r = None.
Proof. cbv zeta. repeat split. Qed.

Lemma createResponse_status st p g issues cs :
  Response.status (Service.createResponse st p g issues cs) = st.
Proof. unfold Service.createResponse. now destruct g. Qed.

Lemma createResponse_issues st p g issues cs :
  Response.issues (Service.createResponse st p g issues cs)
  = match issues with [] => None | _ :: _ => Some issues end.
Proof.
  unfold Service.createResponse. rewrite length_pos_key. now destruct g.
Qed.

Lemma createResponse_corrections st p g issues cs :
  Response.corrections (Service.createResponse st p g issues cs)
  = match cs with [] => None | _ :: _ => Some cs end.
Proof.
  unfold Service.createResponse. rewrite !length_pos_key. now destruct g.
Qed.

(** ** [validateAddress] *)

Section Validate.

Variable K : Constants.
Variable geocodeAddress : Js.value -> option Verified.t.
Variable structuredSearch : Parsed.t -> option Verified.t.

Let validate := Service.validateAddress K geocodeAddress structuredSearch.
Let final := Service.finalResult geocodeAddress structuredSearch.
Let unverified := Service.handleUnverifiableAddress K.

(** The issues [handleUnverifiableAddress] collects. *)
Lemma handleUnverifiableAddress_status p :
  Response.status (unverified p)
  = if Service.hasMinimumComponents p then "unverifiable" else "invalid".
Proof.
  unfold unverified, Service.handleUnverifiableAddress; cbv zeta.
  rewrite createResponse_status.
  unfold Service.hasMinimumComponents.
  now destruct (_ || _).
Qed.

Lemma handleUnverifiableAddress_corrections p :
  Response.corrections (unverified p) = None.
Proof.
  unfold unverified, Service.handleUnverifiableAddress; cbv zeta.
  now rewrite createResponse_corrections.
Qed.

(** The four ways through [validateAddress]. *)
Lemma validateAddress_cases (input : Js.value) :
  (Parser.parseAddress K input = None /\
   validate input
   = Service.createResponse "invalid" None None
       ["Could not parse address input"] []) \/
  (exists p, Parser.parseAddress K input = Some p /\
     final input p = None /\ validate input = unverified p) \/
  (exists p v, Parser.parseAddress K input = Some p /\
     final input p = Some v /\ Service.outsideUS v = true /\
     validate input
     = Service.createResponse "invalid" (Some p) (Some v)
         [Service.notInUS] []) \/
  (exists p v, Parser.parseAddress K input = Some p /\
     final input p = Some v /\ Service.outsideUS v = false /\
     validate input
     = Service.createResponse
         (Service.status (Service.determineStatus p v)) (Some p) (Some v) []
         (Service.corrections (Service.determineStatus p v))).
Proof.
  unfold validate, final, Service.validateAddress.
  destruct (Parser.parseAddress K input) as [p|]; [|now left].
  right.
  destruct (Service.finalResult _ _ input p) as [v|] eqn:Hf.
  - right. destruct (Service.outsideUS v) eqn:Ho.
    + left. now exists p, v.
    + right. now exists p, v.
  - left. now exists p.
Qed.

Lemma determineStatus_not_invalid p v :
  Service.status (Service.determineStatus p v) <> "invalid".
Proof.
  rewrite status_of_corrections.
  destruct (Service.corrections _); [discriminate|].
  destruct (70 <=? _)%Z; discriminate.
Qed.

End Validate.

Section ValidateResults.

Variable K : Constants.
Variable geocodeAddress : Js.value -> option Verified.t.
Variable structuredSearch : Parsed.t -> option Verified.t.

Let validate := Service.validateAddress K geocodeAddress structuredSearch.
Let final := Service.finalResult geocodeAddress structuredSearch.

Lemma outsideUS_iff (v : Verified.t) :
  Service.outsideUS v = true <->
  Verified.country v <> EmptyString /\ Verified.country v <> "US".
Proof.
  unfold Service.outsideUS. rewrite andb_true_iff, !negb_true_iff.
  rewrite String.eqb_neq.
  destruct (Verified.country v); simpl; intuition congruence.
Qed.

(** C10: in every response of [validateAddress] the issues key is present
    only with a non-empty list of issues and the corrections key only with
    a non-empty list of corrections ([createResponse] sets each key exactly
    when its list is non-empty), and a response with status 'valid' has
    neither key. *)
Theorem validateAddress_optional_keys (input : Js.value) :
  let r := validate input in
  (forall l, Response.issues r = Some l -> l <> []) /\
  (forall l, Response.corrections r = Some l -> l <> []) /\
  (Response.status r = "valid" ->
     Response.issues r = None /\ Response.corrections r = None) /\
  (forall st p g issues cs,
     let r' := Service.createResponse st p g issues cs in
     (forall l, Response.issues r' = Some l <-> l = issues /\ issues <> []) /\
     (forall l, Response.corrections r' = Some l <-> l = cs /\ cs <> [])).
Proof.
  cbv zeta.
  assert (Hkey : forall (A : Type) (x l : list A),
             match x with [] => None | _ :: _ => Some x end = Some l <->
             l = x /\ x <> []).
  { intros A [|a x] l; split; try discriminate.
    - now intros [_ H].
    - intros [= <-]. now split.
    - now intros [-> _]. }
  assert (Hall : forall st p g issues cs,
             (forall l, Response.issues
                          (Service.createResponse st p g issues cs) = Some l
                        <-> l = issues /\ issues <> []) /\
             (forall l, Response.corrections
                          (Service.createResponse st p g issues cs) = Some l
                        <-> l = cs /\ cs <> [])).
  { intros. rewrite createResponse_issues, createResponse_corrections.
    split; intro l; apply Hkey. }
  split; [|split; [|split]]; try exact Hall.
  - intros l Hl.
    destruct (validateAddress_cases K geocodeAddress structuredSearch input)
      as [[_ E]|[(p & _ & _ & E)|[(p & v & _ & _ & _ & E)|(p & v & _ & _ & _ & E)]]];
      fold validate in E; rewrite E in Hl.
    + apply Hall in Hl as [-> H]. exact H.
    + unfold Service.handleUnverifiableAddress in Hl; cbv zeta in Hl.
      apply Hall in Hl as [-> H]. exact H.
    + apply Hall in Hl as [-> H]. exact H.
    + apply Hall in Hl as [-> H]. exact H.
  - intros l Hl.
    destruct (validateAddress_cases K geocodeAddress structuredSearch input)
      as [[_ E]|[(p & _ & _ & E)|[(p & v & _ & _ & _ & E)|(p & v & _ & _ & _ & E)]]];
      fold validate in E; rewrite E in Hl.
    + apply Hall in Hl as [-> H]. exact H.
    + unfold Service.handleUnverifiableAddress in Hl; cbv zeta in Hl.
      apply Hall in Hl as [-> H]. exact H.
    + apply Hall in Hl as [-> H]. exact H.
    + apply Hall in Hl as [-> H]. exact H.
  - destruct (validateAddress_cases K geocodeAddress structuredSearch input)
      as [[_ E]|[(p & _ & _ & E)|[(p & v & _ & _ & _ & E)|(p & v & _ & _ & _ & E)]]];
      fold validate in E; rewrite E.
    + rewrite createResponse_status. discriminate.
    + rewrite handleUnverifiableAddress_status.
      destruct (Service.hasMinimumComponents p); discriminate.
    + rewrite createResponse_status. discriminate.
    + rewrite createResponse_status, createResponse_issues,
        createResponse_corrections, status_of_corrections.
      destruct (Service.corrections _); [now split|].
      destruct (70 <=? _)%Z; discriminate.
Qed.

(** C2, as the code has it: [validateAddress] answers 'invalid' exactly
    when the input could not be parsed, or the verified address that was
    found names a country other than "US", or no verified address was found
    and neither street nor city could be parsed; in the second case the
    response carries the one issue saying that the address is not in the
    United States. *)
Theorem validateAddress_invalid_iff (input : Js.value) :
  (Response.status (validate input) = "invalid" <->
   Parser.parseAddress K input = None \/
   exists p, Parser.parseAddress K input = Some p /\
     ((exists v, final input p = Some v /\
         Verified.country v <> EmptyString /\ Verified.country v <> "US") \/
      (final input p = None /\
       Js.truthy (Parsed.street p) = false /\
       Js.truthy (Parsed.city p) = false))) /\
  (forall p v,
     Parser.parseAddress K input = Some p -> final input p = Some v ->
     Verified.country v <> EmptyString -> Verified.country v <> "US" ->
     Response.status (validate input) = "invalid" /\
     Response.issues (validate input) = Some [Service.notInUS]).
Proof.
  destruct (validateAddress_cases K geocodeAddress structuredSearch input)
    as [[P E]|[(p & P & F & E)|[(p & v & P & F & O & E)|(p & v & P & F & O & E)]]];
    fold validate in E; try fold final in F; rewrite E; clear E.
  - split; [|intros; congruence].
    rewrite createResponse_status. split; [now left|reflexivity].
  - split; [|intros; congruence].
    rewrite handleUnverifiableAddress_status.
    unfold Service.hasMinimumComponents.
    split.
    + intros H. right. exists p. split; [exact P|]. right.
      split; [exact F|].
      destruct (Js.truthy (Parsed.street p)), (Js.truthy (Parsed.city p));
        try discriminate H. now split.
    + intros [H|(q & Q & [(v & Fv & _)|(_ & Hs & Hc)])]; try congruence.
      assert (q = p) as -> by congruence.
      now rewrite Hs, Hc.
  - rewrite createResponse_status, createResponse_issues.
    split; [|now intros].
    split; [|reflexivity]. intros _. right. exists p. split; [exact P|].
    left. exists v. split; [exact F|]. now apply outsideUS_iff.
  - rewrite createResponse_status.
    split.
    + split.
      * intros H. now apply determineStatus_not_invalid in H.
      * intros [H|(q & Q & [(w & Fw & Hw)|(Fn & _)])]; try congruence.
        assert (q = p) as -> by congruence.
        assert (w = v) as -> by congruence.
        apply outsideUS_iff in Hw. congruence.
    + intros q w Q Fw H1 H2.
      assert (q = p) as -> by congruence.
      assert (w = v) as -> by congruence.
      assert (Service.outsideUS v = true) by now apply outsideUS_iff.
      congruence.
Qed.

End ValidateResults.

(** C2, as the spec words it, fails: for the input ", NY 10001" neither
    street nor city can be parsed, yet with a geocoding service that finds
    the postal code in the United States the response is 'unverifiable',
    not 'invalid'. *)
Lemma validateAddress_invalid_counterexample :
  let input := Js.VString ", NY 10001" in
  let r :=
    Service.validateAddress constants (Sample.always Sample.manhattan)
      Sample.nothing input in
  (exists p, Parser.parseAddress constants input = Some p /\
             Parsed.street p = None /\ Parsed.city p = None) /\
  Response.status r = "unverifiable" /\
  Response.status r <> "invalid".
Proof.
  cbv zeta. split; [|split].
  - eexists. split; [vm_compute; reflexivity|]. split; reflexivity.
  - vm_compute. reflexivity.
  - vm_compute. discriminate.
Qed.

(** A verified address outside the United States makes the response
    'invalid' with the one issue, whatever the fields say. *)
Example validateAddress_toronto :
  let r :=
    Service.validateAddress constants (Sample.always Sample.toronto)
      Sample.nothing (Js.VString "100 Queen St W, Toronto, ON M5H 2N2") in
  Response.status r = "invalid" /\
  Response.issues r = Some [Service.notInUS] /\
  Response.corrections r = None.
Proof. vm_compute. repeat split. Qed.

(** ** The parser: null results *)

(** C3, as the spec words it, fails: a string of white space only is empty
    after trimming, yet [parseAddress] answers with an address, not null. *)
Lemma parseAddress_blank_counterexample :
  Js.trim "   " = EmptyString /\
  Parser.parseAddress constants (Js.VString "   ")
  = Some (Parsed.mk None None None None None None "   ").
Proof. split; vm_compute; reflexivity. Qed.

(** C3, as the code has it: [parseAddress] answers null exactly when the
    input is not a string or is the empty string (the input is not trimmed
    first); for every other input it answers an address whose [raw] is the
    input. *)
Theorem parseAddress_null_iff (K : Constants) (input : Js.value) :
  (Parser.parseAddress K input = None <->
   forall s, input = Js.VString s -> s = EmptyString) /\
  (forall p, Parser.parseAddress K input = Some p ->
     input = Js.VString (Parsed.raw p) /\ Parsed.raw p <> EmptyString) /\
  (forall s, s <> EmptyString ->
     exists p, Parser.parseAddress K (Js.VString s) = Some p /\
               Parsed.raw p = s).
Proof.
  split; [|split].
  - destruct input as [| |b|n|[|c s]|]; simpl; split; intros H;
      try reflexivity; try (intros s' E; discriminate E).
    + now intros s [= <-].
    + discriminate H.
    + specialize (H _ eq_refl). discriminate H.
  - intros p. destruct input as [| |b|n|[|c s]|]; simpl; try discriminate.
    intros [= <-]. split; [reflexivity|discriminate].
  - intros [|c s] H; [now elim H|]. eexists. split; reflexivity.
Qed.

(** ** The parser: state extraction *)

Lemma isAlpha_isWord (c : ascii) : Js.isAlpha c = true -> Js.isWord c = true.
Proof. unfold Js.isWord. now intros ->. Qed.

(** What the abbreviation pattern finds is a standalone two-letter token. *)
Lemma search_abbrevAt_sound (s : string) :
  forall (b : bool) (pre g : string),
    Parser.searchFrom Parser.abbrevAt b s = Some (pre, g) ->
    exists suf : string,
      s = pre ++ g ++ suf /\
      String.length g = 2 /\
      Js.sforall Js.isAlpha g = true /\
      Parser.endsInWord b pre = false /\
      Parser.headIsWord suf = false.
Proof.
  induction s as [|c r IH]; intros b pre g; cbn [Parser.searchFrom].
  - discriminate.
  - destruct (Parser.abbrevAt b (String c r)) as [a|] eqn:Ha.
    + intros [= <- <-].
      unfold Parser.abbrevAt in Ha.
      destruct r as [|y r']; [discriminate|].
      destruct (_ && _) eqn:Hc in Ha; [|discriminate].
      injection Ha as <-.
      apply andb_true_iff in Hc as [Hc Hr].
      apply andb_true_iff in Hc as [Hc Hy].
      apply andb_true_iff in Hc as [Hb Hx].
      exists r'. cbn. rewrite Hx, Hy. repeat split.
      * unfold Parser.boundary in Hb. cbn in Hb.
        rewrite (isAlpha_isWord _ Hx) in Hb. now destruct b.
      * unfold Parser.boundary in Hr. now destruct (Parser.headIsWord r').
    + destruct (Parser.searchFrom Parser.abbrevAt (Js.isWord c) r)
        as [[pre' g']|] eqn:Hs; [|discriminate].
      intros [= <- <-].
      destruct (IH _ _ _ Hs) as (suf & -> & Hl & Hal & He & Hh).
      exists suf. now repeat split.
Qed.

Lemma lookup_In (table : list (string * string)) (key v : string) :
  Js.lookup table key = Some v -> In (key, v) table.
Proof.
  induction table as [|[k w] t IH]; simpl; [discriminate|].
  destruct (String.eqb_spec k key) as [->|_].
  - intros [= ->]. now left.
  - intros H. right. now apply IH.
Qed.

Lemma lookup_None (table : list (string * string)) (key : string) :
  (forall v, ~ In (key, v) table) -> Js.lookup table key = None.
Proof.
  intros H. destruct (Js.lookup table key) as [v|] eqn:E; [|reflexivity].
  apply lookup_In in E. now elim (H v).
Qed.

Lemma orNull_Some (o : option string) (v : string) :
  Js.orNull o = Some v -> o = Some v.
Proof.
  unfold Js.orNull. destruct (Js.truthy o); [trivial|discriminate].
Qed.

Lemma findStateName_In entries text code name :
  Parser.findStateName entries text = Some (code, name) ->
  In (code, name) entries /\
  Js.includes text (Js.toLowerCase name) = true.
Proof.
  induction entries as [|[a n] t IH]; simpl; [discriminate|].
  destruct (Js.includes text (Js.toLowerCase n)) eqn:E.
  - intros [= <- <-]. split; [now left|exact E].
  - intros H. destruct (IH H). split; [now right|assumption].
Qed.

Lemma findStateName_None entries text :
  Parser.findStateName entries text = None <->
  forall code name, In (code, name) entries ->
    Js.includes text (Js.toLowerCase name) = false.
Proof.
  induction entries as [|[a n] t IH]; simpl.
  - split; [intros _ ? ? []|reflexivity].
  - destruct (Js.includes text (Js.toLowerCase n)) eqn:E.
    + split; [discriminate|]. intros H.
      specialize (H a n (or_introl eq_refl)). congruence.
    + rewrite IH. split.
      * intros H code name [[= <- <-]|Hin]; [exact E|exact (H _ _ Hin)].
      * intros H code name Hin. apply (H code name). now right.
Qed.

Section StateExtraction.

Variable K : Constants.

(** A state that [extractState] returns is a key of the table. *)
Lemma extractState_recognized (address code name : string) :
  Parser.extractState K address = Some (code, name) ->
  In (code, name) (US_STATES K).
Proof.
  unfold Parser.extractState, Parser.search; cbv zeta.
  destruct (Parser.searchFrom Parser.abbrevAt false address) as [[pre g]|].
  - destruct (Js.orNull (Js.lookup (US_STATES K) (Js.toUpperCase g)))
      as [n|] eqn:E.
    + intros [= <- <-]. now apply lookup_In, orNull_Some.
    + intros H. now apply findStateName_In in H as [H _].
  - intros H. now apply findStateName_In in H as [H _].
Qed.

(** [extractState] finds nothing when no standalone two-letter token is a
    state code and no state name occurs. *)
Lemma extractState_nothing (address : string) :
  (forall tok, Rules.standaloneToken address tok ->
     ~ Rules.isStateCode K (Js.toUpperCase tok)) ->
  ~ Rules.namesState K address ->
  Parser.extractState K address = None.
Proof.
  intros Htok Hname.
  assert (Hby : Parser.findStateName (US_STATES K) (Js.toLowerCase address)
                = None).
  { apply findStateName_None. intros code name Hin.
    destruct (Js.includes _ _) eqn:E; [|reflexivity].
    elim Hname. now exists code, name. }
  unfold Parser.extractState, Parser.search; cbv zeta. rewrite Hby.
  destruct (Parser.searchFrom Parser.abbrevAt false address)
    as [[pre g]|] eqn:Hs; [|reflexivity].
  apply search_abbrevAt_sound in Hs as (suf & Hs).
  rewrite lookup_None; [reflexivity|].
  intros v Hin. apply (Htok g).
  - now exists pre, suf.
  - now exists v.
Qed.

(** When [extractState] finds nothing, no state name occurs. *)
Lemma extractState_None_names (address : string) :
  Parser.extractState K address = None -> ~ Rules.namesState K address.
Proof.
  unfold Parser.extractState, Parser.search; cbv zeta.
  intros H (code & name & Hin & Hinc).
  assert (Hby : Parser.findStateName (US_STATES K) (Js.toLowerCase address)
                = None).
  { destruct (Parser.searchFrom Parser.abbrevAt false address) as [[pre g]|];
      [|exact H].
    now destruct (Js.orNull _). }
  rewrite findStateName_None in Hby. specialize (Hby _ _ Hin). congruence.
Qed.

Lemma parsed_state_extract (input : Js.value) (p : Parsed.t) :
  Parser.parseAddress K input = Some p ->
  Parsed.state p
  = option_map fst (Parser.extractState K (Parser.normalize (Parsed.raw p))).
Proof.
  destruct input as [| |b|n|[|c s]|]; simpl; try discriminate.
  intros [= <-]. unfold Parser.parseString; cbv zeta; cbn [Parsed.state Parsed.raw].
  now destruct (Parser.extractState K _) as [[a n]|].
Qed.

(** C5, as the code has it: the state of a parsed address is null or a
    recognized state code, so a two-letter token that is not a recognized
    code never populates it; the state is null when, in the normalized
    text, no standalone two-letter token is a recognized code and no full
    state name occurs; and whenever the state is null no full state name
    occurs. *)
Theorem parseAddress_state_recognized (input : Js.value) (p : Parsed.t)
    (Hparse : Parser.parseAddress K input = Some p) :
  let text := Parser.normalize (Parsed.raw p) in
  (forall code, Parsed.state p = Some code -> Rules.isStateCode K code) /\
  (forall tok, ~ Rules.isStateCode K tok -> Parsed.state p <> Some tok) /\
  ((forall tok, Rules.standaloneToken text tok ->
      ~ Rules.isStateCode K (Js.toUpperCase tok)) ->
   ~ Rules.namesState K text ->
   Parsed.state p = None) /\
  (Parsed.state p = None -> ~ Rules.namesState K text).
Proof.
  cbv zeta. rewrite (parsed_state_extract _ _ Hparse).
  assert (H1 : forall code,
             option_map fst
               (Parser.extractState K (Parser.normalize (Parsed.raw p)))
             = Some code -> Rules.isStateCode K code).
  { intros code.
    destruct (Parser.extractState K _) as [[a n]|] eqn:E; [|discriminate].
    intros [= <-]. exists n. now apply (extractState_recognized _ _ _ E). }
  split; [exact H1|]. split; [|split].
  - intros tok Hn E. now apply Hn, H1.
  - intros Htok Hname. now rewrite extractState_nothing.
  - destruct (Parser.extractState K _) as [[a n]|] eqn:E; [discriminate|].
    intros _. now apply extractState_None_names.
Qed.

End StateExtraction.

(** The theorem at the first address of the repository's tests. *)
Lemma parseAddress_state_recognized_witness :
  let p := Parser.parseString constants "123 Main Street, New York, NY 10001" in
  (forall code, Parsed.state p = Some code ->
     Rules.isStateCode constants code) /\
  Parsed.state p = Some "NY".
Proof.
  cbv zeta. split.
  - apply (parseAddress_state_recognized constants
             (Js.VString "123 Main Street, New York, NY 10001") _ eq_refl).
  - vm_compute. reflexivity.
Defined.

(** C5, as the spec words it, fails: "XX" is a standalone two-letter token
    of the address and not a state code, yet the state of the parsed address
    is null, not "XX". *)
Lemma parseAddress_state_counterexample :
  let s := "Main Street, Somewhere, XX" in
  Rules.standaloneToken s "XX" /\
  Js.lookup (US_STATES constants) "XX" = None /\
  exists p, Parser.parseAddress constants (Js.VString s) = Some p /\
            Parsed.state p = None /\ Parsed.state p <> Some "XX".
Proof.
  cbv zeta. split; [|split].
  - exists "Main Street, Somewhere, ", EmptyString. repeat split.
  - vm_compute. reflexivity.
  - eexists. split; [vm_compute; reflexivity|]. split; [reflexivity|discriminate].
Qed.

(** C6 at an address of the repository's tests: the first standalone
    two-letter token is "St", which is no state code, so the abbreviation
    "MA" further on is never looked at and, no state name occurring,
    [extractState] finds nothing and the parsed state is null. *)
Theorem extractState_stops_at_first_token :
  let s := "100 First St, Boston, MA 02101" in
  Parser.normalize s = s /\
  Rules.standaloneToken s "MA" /\
  Js.lookup (US_STATES constants) "MA" = Some "Massachusetts" /\
  Parser.search Parser.abbrevAt s = Some ("100 First ", "St") /\
  Parser.extractState constants s = None /\
  option_map Parsed.state (Parser.parseAddress constants (Js.VString s))
  = Some None.
Proof.
  cbv zeta. repeat split; try (vm_compute; reflexivity).
  exists "100 First St, Boston, ", " 02101". repeat split.
Qed.

(** ** The normalizer: words, splitting and joining *)

Lemma upperChar_idem (c : ascii) :
  Js.upperChar (Js.upperChar c) = Js.upperChar c.
Proof. each_char c. Qed.

Lemma sapp_nil_r (s : string) : s ++ EmptyString = s.
Proof. induction s as [|c r IH]; simpl; now rewrite ?IH. Qed.

Lemma sapp_assoc (a b c : string) : (a ++ b) ++ c = a ++ b ++ c.
Proof. induction a as [|x a IH]; simpl; now rewrite ?IH. Qed.

Lemma noSpace_cons (c : ascii) (w : string) :
  Rules.noSpace (String c w) = negb (Js.isSpace c) && Rules.noSpace w.
Proof. reflexivity. Qed.

Lemma splitSpacesFrom_nonempty (b : bool) (s : string) :
  Js.splitSpacesFrom b s <> [].
Proof.
  revert b; induction s as [|c r IH]; intros b; simpl; [discriminate|].
  destruct (Js.isSpace c).
  - destruct b; [apply IH|discriminate].
  - destruct (Js.splitSpacesFrom false r); discriminate.
Qed.

Lemma splitSpacesFrom_false (s : string) :
  Js.splitSpacesFrom false s
  = if Js.headIsSpace s then EmptyString :: Js.splitSpacesFrom true s
    else Js.splitSpacesFrom true s.
Proof. destruct s as [|c r]; simpl; [reflexivity|]. now destruct (Js.isSpace c). Qed.

(** Trimming the end twice is trimming it once. *)
Lemma dropEnd_idem (p : ascii -> bool) (s : string) :
  Js.dropEnd p (Js.dropEnd p s) = Js.dropEnd p s.
Proof.
  induction s as [|c r IH]; simpl; [reflexivity|].
  destruct (p c && Js.isEmpty (Js.dropEnd p r)) eqn:E; [reflexivity|].
  simpl. now rewrite IH, E.
Qed.

Lemma dropStart_head (p : ascii -> bool) (s : string) :
  match Js.dropStart p s with
  | String c _ => p c = false
  | EmptyString => True
  end.
Proof.
  induction s as [|c r IH]; simpl; [exact I|].
  destruct (p c) eqn:E; [exact IH|exact E].
Qed.

Lemma trim_shape (s : string) :
  Js.trimEnd (Js.trim s) = Js.trim s /\ Js.headIsSpace (Js.trim s) = false.
Proof.
  unfold Js.trim, Js.trimEnd, Js.trimStart. split; [apply dropEnd_idem|].
  pose proof (dropStart_head Js.isSpace s) as H.
  destruct (Js.dropStart Js.isSpace s) as [|c r]; [reflexivity|].
  simpl. rewrite H. simpl. exact H.
Qed.

(** The pieces of a string that neither starts nor ends with white space
    are words. *)
Lemma splitSpaces_good (t : string) :
  t <> EmptyString -> Js.trimEnd t = t ->
  Forall Rules.good (Js.splitSpacesFrom true t) /\
  (Js.headIsSpace t = false -> Forall Rules.good (Js.splitSpacesFrom false t)).
Proof.
  unfold Js.trimEnd.
  induction t as [|c r IH]; intros Hne Hend; [now elim Hne|].
  assert (Hmain : Forall Rules.good (Js.splitSpacesFrom true (String c r))).
  { simpl in Hend. simpl.
    destruct (Js.isSpace c) eqn:Hc; simpl in Hend.
    - destruct (Js.isEmpty (Js.dropEnd Js.isSpace r)) eqn:He; [discriminate|].
      injection Hend as Hend.
      apply IH; [|exact Hend]. intros ->. discriminate He.
    - injection Hend as Hend.
      destruct r as [|d r'].
      + simpl. constructor; [|constructor]. split; [discriminate|].
        rewrite noSpace_cons, Hc. reflexivity.
      + destruct IH as [IH _]; [discriminate|exact Hend|].
        rewrite splitSpacesFrom_false.
        destruct (Js.headIsSpace (String d r')).
        * constructor; [|exact IH]. split; [discriminate|].
          rewrite noSpace_cons, Hc. reflexivity.
        * pose proof (splitSpacesFrom_nonempty true (String d r')) as Hn.
          destruct (Js.splitSpacesFrom true (String d r')) as [|x xs];
            [now elim Hn|].
          apply Forall_cons_iff in IH as [[Hx1 Hx2] Hxs].
          constructor; [|exact Hxs]. split; [discriminate|].
          rewrite noSpace_cons, Hc, Hx2. reflexivity. }
  split; [exact Hmain|].
  intros Hh. rewrite splitSpacesFrom_false, Hh. exact Hmain.
Qed.

(** Splitting what was joined gives the words back. *)
Lemma splitSpacesFrom_word (w t : string) :
  Rules.noSpace w = true ->
  Js.splitSpacesFrom false (w ++ t)
  = match Js.splitSpacesFrom false t with
    | x :: xs => (w ++ x) :: xs
    | [] => [w]
    end.
Proof.
  intros Hw. induction w as [|c w IH]; simpl.
  - pose proof (splitSpacesFrom_nonempty false t).
    now destruct (Js.splitSpacesFrom false t).
  - rewrite noSpace_cons in Hw. apply andb_true_iff in Hw as [Hc Hw].
    apply negb_true_iff in Hc. rewrite Hc, (IH Hw).
    now destruct (Js.splitSpacesFrom false t).
Qed.

Lemma splitSpacesFrom_true_word (w t : string) :
  Rules.good w ->
  Js.splitSpacesFrom true (w ++ t) = Js.splitSpacesFrom false (w ++ t).
Proof.
  intros [Hne Hw]. destruct w as [|c w]; [now elim Hne|].
  rewrite noSpace_cons in Hw. apply andb_true_iff in Hw as [Hc _].
  apply negb_true_iff in Hc. simpl. now rewrite Hc.
Qed.

Lemma join_cons (w : string) (ws : list string) :
  ws <> [] -> Js.join " " (w :: ws) = w ++ " " ++ Js.join " " ws.
Proof. destruct ws; [now intros H; elim H|reflexivity]. Qed.

Lemma join_good_head (ws : list string) :
  ws <> [] -> Forall Rules.good ws ->
  exists w t, Rules.good w /\ Js.join " " ws = w ++ t.
Proof.
  destruct ws as [|w ws]; [now intros H; elim H|]. intros _ H.
  inversion H; subst. exists w.
  destruct ws as [|w' ws'].
  - exists EmptyString. split; [assumption|]. simpl. now rewrite sapp_nil_r.
  - exists (" " ++ Js.join " " (w' :: ws')). split; [assumption|reflexivity].
Qed.

Lemma splitSpaces_join (ws : list string) :
  ws <> [] -> Forall Rules.good ws -> Js.splitSpaces (Js.join " " ws) = ws.
Proof.
  unfold Js.splitSpaces.
  induction ws as [|w ws IH]; [now intros H; elim H|]. intros _ H.
  inversion H as [|? ? Hw Hws]; subst.
  destruct ws as [|w' ws'].
  - simpl. rewrite <- (sapp_nil_r w) at 1.
    rewrite splitSpacesFrom_word by apply Hw. simpl. now rewrite sapp_nil_r.
  - rewrite join_cons by discriminate.
    rewrite splitSpacesFrom_word by apply Hw.
    cbn [append Js.splitSpacesFrom]. 
    replace (Js.isSpace " ") with true by reflexivity.
    destruct (join_good_head (w' :: ws')) as (x & t & Hx & E);
      [discriminate|exact Hws|].
    rewrite E, splitSpacesFrom_true_word by exact Hx. rewrite <- E.
    rewrite IH by (discriminate || exact Hws).
    now rewrite sapp_nil_r.
Qed.

Lemma dropEnd_app (p : ascii -> bool) (a b : string) :
  Js.dropEnd p b <> EmptyString ->
  Js.dropEnd p (a ++ b) = a ++ Js.dropEnd p b.
Proof.
  intros Hb. induction a as [|c a IH]; simpl; [reflexivity|].
  rewrite IH.
  destruct (a ++ Js.dropEnd p b) as [|x y] eqn:E.
  - destruct a; [simpl in E; now elim Hb|discriminate E].
  - simpl. now rewrite andb_false_r.
Qed.

Lemma trimEnd_noSpace (w : string) :
  Rules.noSpace w = true -> Js.trimEnd w = w.
Proof.
  unfold Js.trimEnd. induction w as [|c w IH]; simpl; [reflexivity|].
  rewrite noSpace_cons. intros H. apply andb_true_iff in H as [Hc Hw].
  apply negb_true_iff in Hc. now rewrite Hc, (IH Hw).
Qed.

Lemma sapp_nonempty (a b : string) :
  a <> EmptyString -> a ++ b <> EmptyString.
Proof. destruct a; [now intros H; elim H|discriminate]. Qed.

(** A join of words is not empty and trimming leaves it as it is. *)
Lemma trim_join (ws : list string) :
  ws <> [] -> Forall Rules.good ws ->
  Js.join " " ws <> EmptyString /\ Js.trim (Js.join " " ws) = Js.join " " ws.
Proof.
  intros Hne Hws.
  assert (Hend : Js.join " " ws <> EmptyString /\
                 Js.trimEnd (Js.join " " ws) = Js.join " " ws).
  { induction Hws as [|w ws [Hw1 Hw2] Hws IH]; [now elim Hne|].
    destruct ws as [|w' ws'].
    - simpl. split; [exact Hw1|now apply trimEnd_noSpace].
    - destruct IH as [IH1 IH2]; [discriminate|].
      rewrite join_cons by discriminate. split.
      + now apply sapp_nonempty.
      + unfold Js.trimEnd in *.
        rewrite dropEnd_app.
        * rewrite dropEnd_app by now rewrite IH2. now rewrite IH2.
        * rewrite dropEnd_app by now rewrite IH2. discriminate. }
  destruct Hend as [H1 H2]. split; [exact H1|].
  destruct (join_good_head ws Hne Hws) as (w & t & [Hw1 Hw2] & E).
  unfold Js.trim. replace (Js.trimStart (Js.join " " ws)) with (Js.join " " ws);
    [exact H2|].
  rewrite E. destruct w as [|c w]; [now elim Hw1|].
  rewrite noSpace_cons in Hw2. apply andb_true_iff in Hw2 as [Hc _].
  apply negb_true_iff in Hc. unfold Js.trimStart. simpl. now rewrite Hc.
Qed.

(** ** The normalizer: one word *)

Lemma toLowerCase_capitalize (w : string) :
  Js.toLowerCase (Parser.capitalize w) = Js.toLowerCase w.
Proof.
  destruct w as [|c r]; [reflexivity|].
  unfold Parser.capitalize, Js.toLowerCase, Js.toUpperCase. simpl.
  rewrite lowerChar_upperChar. f_equal.
  induction r as [|d r IH]; simpl; [reflexivity|].
  now rewrite lowerChar_idem, IH.
Qed.

Lemma capitalize_idem (w : string) :
  Parser.capitalize (Parser.capitalize w) = Parser.capitalize w.
Proof.
  destruct w as [|c r]; [reflexivity|].
  unfold Parser.capitalize, Js.toLowerCase, Js.toUpperCase. simpl.
  rewrite upperChar_idem. f_equal.
  induction r as [|d r IH]; simpl; [reflexivity|].
  now rewrite lowerChar_idem, IH.
Qed.

Lemma capitalize_good (w : string) :
  Rules.good w -> Rules.good (Parser.capitalize w).
Proof.
  intros [Hne Hw]. destruct w as [|c r]; [now elim Hne|].
  unfold Parser.capitalize, Js.toLowerCase, Js.toUpperCase. simpl.
  split; [discriminate|].
  rewrite noSpace_cons in *. apply andb_true_iff in Hw as [Hc Hr].
  rewrite isSpace_upperChar, Hc. simpl.
  clear Hc. induction r as [|d r IH]; simpl; [reflexivity|].
  rewrite noSpace_cons in *. apply andb_true_iff in Hr as [Hd Hr].
  now rewrite isSpace_lowerChar, Hd, IH.
Qed.

Lemma orNull_Some_nonempty (o : option string) (v : string) :
  Js.orNull o = Some v -> o = Some v /\ v <> EmptyString.
Proof.
  unfold Js.orNull. destruct o as [[|c r]|]; simpl; try discriminate.
  intros [= <-]. split; [reflexivity|discriminate].
Qed.

Section Normalizer.

Variable K : Constants.
Hypothesis Hsettled : Rules.tablesSettled K = true.

(** What the table condition says of one expansion. *)
Lemma settled_value (key v : string) :
  In (key, v) (DIRECTIONS K ++ STREET_TYPES K) -> v <> EmptyString ->
  Rules.noSpace v = true /\
  forall a b, Parser.normalizeWordAt K a b v = v.
Proof.
  intros Hin Hne.
  unfold Rules.tablesSettled in Hsettled.
  rewrite forallb_forall in Hsettled. specialize (Hsettled _ Hin).
  cbn [snd] in Hsettled. unfold Rules.settled in Hsettled.
  destruct v as [|c r]; [now elim Hne|]. cbn [Js.isEmpty orb] in Hsettled.
  apply andb_true_iff in Hsettled as [Hn Hall]. split; [exact Hn|].
  rewrite forallb_forall in Hall.
  intros a b. apply String.eqb_eq. apply (Hall (a, b)).
  destruct a, b; simpl; tauto.
Qed.

(** The word is replaced by a settled expansion or capitalized. *)
Lemma normalizeWordAt_settled (a b : bool) (w : string) :
  Rules.good w ->
  Rules.good (Parser.normalizeWordAt K a b w) /\
  Parser.normalizeWordAt K a b (Parser.normalizeWordAt K a b w)
  = Parser.normalizeWordAt K a b w.
Proof.
  intros Hw. unfold Parser.normalizeWordAt at 1 3 4; cbv zeta.
  destruct (if a then Js.orNull (Js.lookup (DIRECTIONS K) _) else None)
    as [d|] eqn:Hd.
  - assert (Hin : In (Js.dropFinalDot (Js.toLowerCase w), d)
                     (DIRECTIONS K ++ STREET_TYPES K) /\ d <> EmptyString).
    { destruct a; [|discriminate].
      apply orNull_Some_nonempty in Hd as [Hd Hne]. split; [|exact Hne].
      apply in_or_app. left. now apply lookup_In. }
    destruct Hin as [Hin Hne].
    destruct (settled_value _ _ Hin Hne) as [Hn Hfix].
    split; [now split|apply Hfix].
  - destruct (if b then Js.orNull (Js.lookup (STREET_TYPES K) _) else None)
      as [t|] eqn:Ht.
    + assert (Hin : In (Js.dropFinalDot (Js.toLowerCase w), t)
                       (DIRECTIONS K ++ STREET_TYPES K) /\ t <> EmptyString).
      { destruct b; [|discriminate].
        apply orNull_Some_nonempty in Ht as [Ht Hne]. split; [|exact Hne].
        apply in_or_app. right. now apply lookup_In. }
      destruct Hin as [Hin Hne].
      destruct (settled_value _ _ Hin Hne) as [Hn Hfix].
      split; [now split|apply Hfix].
    + split; [now apply capitalize_good|].
      unfold Parser.normalizeWordAt; cbv zeta.
      rewrite toLowerCase_capitalize, Hd, Ht.
      apply capitalize_idem.
Qed.

Lemma mapiFrom_length {A B : Type} (f : Z -> A -> B) (i : Z) (l : list A) :
  List.length (Parser.mapiFrom f i l) = List.length l.
Proof. revert i; induction l as [|x l IH]; intros i; simpl; now rewrite ?IH. Qed.

Lemma mapiFrom_words (f : Z -> string -> string) (i : Z) (l : list string) :
  (forall j w, Rules.good w -> Rules.good (f j w) /\ f j (f j w) = f j w) ->
  Forall Rules.good l ->
  Forall Rules.good (Parser.mapiFrom f i l) /\
  Parser.mapiFrom f i (Parser.mapiFrom f i l) = Parser.mapiFrom f i l.
Proof.
  intros Hf Hl. revert i.
  induction Hl as [|w l Hw Hl IH]; intros i; simpl; [now split|].
  destruct (Hf i w Hw) as [Hg Hi], (IH (i + 1)%Z) as [IH1 IH2].
  split; [now constructor|]. now rewrite Hi, IH2.
Qed.

Lemma normalizeStreetName_Some (s : string) :
  s <> EmptyString ->
  Parser.normalizeStreetName K (Some s)
  = Some (Js.join " "
            (Parser.mapiFrom
               (Parser.normalizeWord K
                  (Z.of_nat (List.length (Js.splitSpaces (Js.trim s)))))
               0 (Js.splitSpaces (Js.trim s)))).
Proof. destruct s; [now intros H; elim H|reflexivity]. Qed.


End Normalizer.



(* ================================================================== *)
(** * Further properties of the parser and the service *)

(** ** Pattern search *)

Lemma endsInWord_app (b : bool) (x y : string) :
  Parser.endsInWord b (x ++ y) = Parser.endsInWord (Parser.endsInWord b x) y.
Proof. revert b; induction x as [|c x IH]; intros b; simpl; [reflexivity|apply IH]. Qed.

(** A match that [searchFrom] reports is a match at that position. *)
Lemma searchFrom_sound {A : Type} (m : bool -> string -> option A) (s : string) :
  forall b pre a,
    Parser.searchFrom m b s = Some (pre, a) ->
    exists s', s = pre ++ s' /\ m (Parser.endsInWord b pre) s' = Some a.
Proof.
  induction s as [|c r IH]; intros b pre a; cbn [Parser.searchFrom].
  - destruct (m b EmptyString) eqn:E; [|discriminate].
    intros [= <- <-]. now exists EmptyString.
  - destruct (m b (String c r)) eqn:E.
    + intros [= <- <-]. now exists (String c r).
    + destruct (Parser.searchFrom m (Js.isWord c) r) as [[pre' a']|] eqn:Hs;
        [|discriminate].
      intros [= <- <-]. destruct (IH _ _ _ Hs) as (s' & -> & Hm).
      now exists s'.
Qed.

(** When [searchFrom] reports nothing, the pattern matches nowhere. *)
Lemma searchFrom_None {A : Type} (m : bool -> string -> option A) (s : string) :
  forall b,
    Parser.searchFrom m b s = None ->
    forall pre s', s = pre ++ s' -> m (Parser.endsInWord b pre) s' = None.
Proof.
  induction s as [|c r IH]; intros b; cbn [Parser.searchFrom].
  - destruct (m b EmptyString) eqn:E; [discriminate|].
    intros _ [|x pre] s'; simpl; [now intros <-|discriminate].
  - destruct (m b (String c r)) eqn:E; [discriminate|].
    destruct (Parser.searchFrom m (Js.isWord c) r) as [[pre' a']|] eqn:Hs;
      [discriminate|].
    intros _ [|x pre] s'; simpl.
    + now intros <-.
    + intros [= <- ->]. now apply (IH _ Hs).
Qed.

(** The match reported is the leftmost one. *)
Lemma searchFrom_leftmost {A : Type} (m : bool -> string -> option A) (s : string) :
  forall b pre a,
    Parser.searchFrom m b s = Some (pre, a) ->
    forall pre1 s1, s = pre1 ++ s1 ->
      String.length pre1 < String.length pre ->
      m (Parser.endsInWord b pre1) s1 = None.
Proof.
  induction s as [|c r IH]; intros b pre a; cbn [Parser.searchFrom].
  - destruct (m b EmptyString) eqn:E; [|discriminate].
    intros [= <- <-] pre1 s1 _ H. simpl in H. lia.
  - destruct (m b (String c r)) eqn:E.
    + intros [= <- <-] pre1 s1 _ H. simpl in H. lia.
    + destruct (Parser.searchFrom m (Js.isWord c) r) as [[pre' a']|] eqn:Hs;
        [|discriminate].
      intros [= <- <-] [|x pre1] s1; simpl.
      * now intros <- _.
      * intros [= <- ->] H. apply (IH _ _ _ Hs); [reflexivity|lia].
Qed.

(** ** Runs of digits *)

Lemma takeDigits_Some (n : nat) (s : string) :
  forall d rest,
    Parser.takeDigits n s = Some (d, rest) ->
    s = d ++ rest /\ Shape.digits n d.
Proof.
  revert s; induction n as [|n IH]; intros s d rest; simpl.
  - intros [= <- <-]. now repeat split.
  - destruct s as [|c r]; [discriminate|].
    destruct (Js.isDigit c) eqn:Hc; [|discriminate].
    destruct (Parser.takeDigits n r) as [[d' rest']|] eqn:E; [|discriminate].
    intros [= <- <-]. destruct (IH _ _ _ E) as (-> & Hl & Hd).
    unfold Shape.digits. simpl. rewrite Hc, Hl, Hd. now repeat split.
Qed.

Lemma takeDigits_app (n : nat) (d rest : string) :
  Shape.digits n d -> Parser.takeDigits n (d ++ rest) = Some (d, rest).
Proof.
  revert d; induction n as [|n IH]; intros [|c d] [Hl Hd];
    try discriminate Hl; simpl; [reflexivity|].
  simpl in Hd. apply andb_true_iff in Hd as [Hc Hd].
  injection Hl as Hl. rewrite Hc, IH; [reflexivity|now split].
Qed.

Lemma code_eq (c : ascii) (n : N) :
  (Js.code c =? n)%N = true -> c = ascii_of_N n.
Proof.
  intros H. apply N.eqb_eq in H. rewrite <- H. unfold Js.code.
  symmetry. apply ascii_N_embedding.
Qed.

Lemma digits_nonempty (n : nat) (d : string) :
  Shape.digits (S n) d -> d <> EmptyString.
Proof. intros [Hl _] ->. discriminate Hl. Qed.

(** X1: [isValidZipCode] accepts exactly the strings of five digits and
    those of five digits, a hyphen and four digits; null is rejected. *)
Theorem isValidZipCode_iff (z : string) :
  (Parser.isValidZipCode (Some z) = true <-> Shape.zipFormat z) /\
  Parser.isValidZipCode None = false.
Proof.
  split; [|reflexivity]. unfold Parser.isValidZipCode, Shape.zipFormat. split.
  - destruct (Parser.takeDigits 5 z) as [[d r]|] eqn:E; [|discriminate].
    apply takeDigits_Some in E as (-> & Hd).
    destruct r as [|c r]; [intros _; left; now rewrite sapp_nil_r|].
    destruct (Js.code c =? 45)%N eqn:Hc; [|discriminate].
    apply code_eq in Hc as ->.
    destruct (Parser.takeDigits 4 r) as [[d4 r4]|] eqn:E4; [|discriminate].
    apply takeDigits_Some in E4 as (-> & Hd4).
    destruct r4; [|discriminate]. intros _. right. exists d, d4.
    now rewrite sapp_nil_r.
  - intros [Hd|(d5 & d4 & -> & H5 & H4)].
    + rewrite <- (sapp_nil_r z), (takeDigits_app _ _ _ Hd). reflexivity.
    + rewrite (takeDigits_app _ _ _ H5). cbn [append].
      replace (Js.code "-" =? 45)%N with true by reflexivity.
      rewrite <- (sapp_nil_r d4), (takeDigits_app _ _ _ H4). reflexivity.
Qed.

(** ** The ZIP code *)

Lemma isDigit_isWord (c : ascii) : Js.isDigit c = true -> Js.isWord c = true.
Proof. unfold Js.isWord. intros ->. now rewrite orb_true_r. Qed.

Lemma digits_headIsWord (n : nat) (d rest : string) :
  Shape.digits (S n) d -> Parser.headIsWord (d ++ rest) = true.
Proof.
  intros [Hl Hd]. destruct d as [|c d]; [discriminate Hl|].
  simpl in *. apply andb_true_iff in Hd as [Hc _]. now apply isDigit_isWord.
Qed.

(** What a match of the ZIP pattern at one position consists of. *)
Lemma zipAt_Some (b : bool) (s five rest : string) (ext : option string) :
  Parser.zipAt b s = Some ((five, ext), rest) ->
  b = false /\ Shape.digits 5 five /\ Parser.headIsWord rest = false /\
  match ext with
  | Some four => s = five ++ "-" ++ four ++ rest /\ Shape.digits 4 four
  | None => s = five ++ rest
  end.
Proof.
  unfold Parser.zipAt.
  destruct (Parser.boundary b s) eqn:Hb; [|discriminate].
  destruct (Parser.takeDigits 5 s) as [[d r5]|] eqn:E; [|discriminate].
  apply takeDigits_Some in E as (-> & Hd).
  assert (Hfalse : b = false).
  { unfold Parser.boundary in Hb. rewrite (digits_headIsWord _ _ _ Hd) in Hb.
    now destruct b. }
  assert (Hplain :
            (if Parser.boundary true r5 then Some ((d, @None string), r5)
             else None) = Some ((five, ext), rest) ->
            b = false /\ Shape.digits 5 five /\
            Parser.headIsWord rest = false /\
            match ext with
            | Some four => d ++ r5 = five ++ "-" ++ four ++ rest /\
                           Shape.digits 4 four
            | None => d ++ r5 = five ++ rest
            end).
  { unfold Parser.boundary. destruct (Parser.headIsWord r5) eqn:Hh;
      [discriminate|]. cbn [xorb]. intros [= <- <- <-].
    split; [exact Hfalse|]. split; [exact Hd|]. now split. }
  destruct r5 as [|c r]; [exact Hplain|].
  destruct (Js.code c =? 45)%N eqn:Hc; [|exact Hplain].
  destruct (Parser.takeDigits 4 r) as [[d4 r9]|] eqn:E4; [|exact Hplain].
  destruct (Parser.boundary true r9) eqn:H9; [|exact Hplain].
  intros [= <- <- <-].
  apply takeDigits_Some in E4 as (-> & Hd4). apply code_eq in Hc as ->.
  unfold Parser.boundary in H9.
  destruct (Parser.headIsWord r9); [discriminate|].
  split; [exact Hfalse|]. split; [exact Hd|]. split; [reflexivity|].
  split; [reflexivity|exact Hd4].
Qed.

(** The ZIP pattern matches wherever five digits stand between two word
    boundaries. *)
Lemma zipAt_standalone (five rest : string) :
  Shape.digits 5 five -> Parser.headIsWord rest = false ->
  Parser.zipAt false (five ++ rest) <> None.
Proof.
  intros Hd Hr. unfold Parser.zipAt, Parser.boundary.
  rewrite (digits_headIsWord _ _ _ Hd), (takeDigits_app _ _ _ Hd), Hr.
  cbn [xorb].
  destruct rest as [|c r]; [discriminate|].
  destruct (Js.code c =? 45)%N; [|discriminate].
  destruct (Parser.takeDigits 4 r) as [[d4 r9]|]; [|discriminate].
  destruct (Parser.headIsWord r9); discriminate.
Qed.

Lemma parseAddress_Some (K : Constants) (input : Js.value) (p : Parsed.t) :
  Parser.parseAddress K input = Some p ->
  exists s, input = Js.VString s /\ s <> EmptyString /\
            p = Parser.parseString K s.
Proof.
  destruct input as [| |b|n|[|c s]|]; simpl; try discriminate.
  intros [= <-]. eexists. split; [reflexivity|]. split; [discriminate|reflexivity].
Qed.

Lemma parsed_zipCode (K : Constants) (s : string) :
  Parsed.zipCode (Parser.parseString K s)
  = match Parser.search Parser.zipAt (Parser.normalize s) with
    | Some (_, ((five, Some four), _)) => Some (five ++ "-" ++ four)
    | Some (_, ((five, None), _)) => Some five
    | None => None
    end.
Proof. reflexivity. Qed.

(** X2: the ZIP code of a parsed address has the format [isValidZipCode]
    accepts, and it stands in the normalized text between two word
    boundaries. *)
Theorem parsed_zipCode_valid (K : Constants) (input : Js.value)
    (p : Parsed.t) (z : string)
    (Hparse : Parser.parseAddress K input = Some p)
    (Hzip : Parsed.zipCode p = Some z) :
  Parser.isValidZipCode (Some z) = true /\
  Shape.standalone (Parser.normalize (Parsed.raw p)) z.
Proof.
  apply parseAddress_Some in Hparse as (s & _ & _ & ->).
  rewrite parsed_zipCode in Hzip. cbn [Parser.parseString Parsed.raw].
  unfold Parser.search in Hzip.
  destruct (Parser.searchFrom Parser.zipAt false (Parser.normalize s))
    as [[pre [[five ext] rest]]|] eqn:Hs; [|discriminate].
  apply searchFrom_sound in Hs as (s' & Hn & Hm).
  apply zipAt_Some in Hm as (Hb & H5 & Hr & Hext).
  rewrite Hn. destruct ext as [four|].
  - destruct Hext as [-> H4]. injection Hzip as <-. split.
    + apply isValidZipCode_iff. right. now exists five, four.
    + exists pre, rest. rewrite !sapp_assoc. cbn [append]. now repeat split.
  - subst s'. injection Hzip as <-. split.
    + apply isValidZipCode_iff. now left.
    + exists pre, rest. now repeat split.
Qed.

Lemma parsed_zipCode_valid_witness :
  let p := Parser.parseString constants "200 Park Ave, New York, NY 10166-0001" in
  Parsed.zipCode p = Some "10166-0001" /\
  Parser.isValidZipCode (Some "10166-0001") = true /\
  Shape.standalone (Parser.normalize (Parsed.raw p)) "10166-0001".
Proof.
  cbv zeta. split; [vm_compute; reflexivity|].
  apply (parsed_zipCode_valid constants
           (Js.VString "200 Park Ave, New York, NY 10166-0001") _ _ eq_refl).
  vm_compute. reflexivity.
Defined.

(** X3: the ZIP code of a parsed address is null exactly when no run of
    five digits stands between two word boundaries in the normalized
    text. *)
Theorem parsed_zipCode_absent_iff (K : Constants) (input : Js.value)
    (p : Parsed.t) (Hparse : Parser.parseAddress K input = Some p) :
  Parsed.zipCode p = None <->
  ~ exists five, Shape.digits 5 five /\
                 Shape.standalone (Parser.normalize (Parsed.raw p)) five.
Proof.
  apply parseAddress_Some in Hparse as (s & _ & _ & ->).
  rewrite parsed_zipCode. cbn [Parser.parseString Parsed.raw].
  unfold Parser.search.
  destruct (Parser.searchFrom Parser.zipAt false (Parser.normalize s))
    as [[pre [[five ext] rest]]|] eqn:Hs.
  - split; [destruct ext; discriminate|]. intros H. exfalso. apply H.
    apply searchFrom_sound in Hs as (s' & Hn & Hm).
    apply zipAt_Some in Hm as (Hb & H5 & Hr & Hext).
    exists five. split; [exact H5|]. rewrite Hn.
    destruct ext as [four|].
    + destruct Hext as [-> _]. exists pre, ("-" ++ four ++ rest).
      now repeat split.
    + subst s'. exists pre, rest. now repeat split.
  - split; [|reflexivity]. intros _ (five & H5 & pre & suf & Hn & Hp & Hr).
    pose proof (searchFrom_None _ _ _ Hs pre (five ++ suf) Hn) as Hm.
    rewrite Hp in Hm. now apply (zipAt_standalone five suf H5 Hr).
Qed.

Lemma parsed_zipCode_absent_iff_witness :
  let p := Parser.parseString constants "Main Street, Somewhere" in
  Parsed.zipCode p = None /\
  ~ exists five, Shape.digits 5 five /\
                 Shape.standalone (Parser.normalize (Parsed.raw p)) five.
Proof.
  cbv zeta. split; [vm_compute; reflexivity|].
  apply (parsed_zipCode_absent_iff constants
           (Js.VString "Main Street, Somewhere") _ eq_refl).
  vm_compute. reflexivity.
Defined.

(** ** The state of a parsed address *)

Lemma In_lookup (table : list (string * string)) (key v : string) :
  In (key, v) table -> exists v', Js.lookup table key = Some v'.
Proof.
  induction table as [|[k w] t IH]; simpl; [intros []|].
  intros [[= -> ->]|Hin].
  - rewrite String.eqb_refl. now exists v.
  - destruct (String.eqb k key); [now exists w|now apply IH].
Qed.

Lemma codesUpper_In (K : Constants) (code name : string) :
  Shape.codesUpper K = true -> In (code, name) (US_STATES K) ->
  code <> EmptyString /\ Js.toUpperCase code = code.
Proof.
  unfold Shape.codesUpper. rewrite forallb_forall. intros H Hin.
  specialize (H _ Hin). cbn [fst] in H.
  apply andb_true_iff in H as [Hne Hup]. apply String.eqb_eq in Hup.
  split; [|exact Hup]. intros ->. discriminate Hne.
Qed.

Lemma parsed_state_In (K : Constants) (input : Js.value) (p : Parsed.t)
    (code : string) :
  Parser.parseAddress K input = Some p -> Parsed.state p = Some code ->
  exists name, In (code, name) (US_STATES K).
Proof.
  intros Hparse Hs. rewrite (parsed_state_extract _ _ _ Hparse) in Hs.
  destruct (Parser.extractState K _) as [[a n]|] eqn:E; [|discriminate].
  injection Hs as <-. exists n. now apply (extractState_recognized _ _ _ _ E).
Qed.



(** ** The issues of an unverified address *)

Lemma truthy_Some (o : option string) :
  Js.truthy o = true -> exists s, o = Some s /\ s <> EmptyString.
Proof.
  destruct o as [[|c r]|]; try discriminate. intros _.
  eexists. split; [reflexivity|discriminate].
Qed.



(** ** The fields of a parsed address are null or not empty *)

Lemma isWord_not_space (c : ascii) : Js.isWord c && Js.isSpace c = false.
Proof. each_char c. Qed.

Lemma span_spec (p : ascii -> bool) (s : string) :
  forall a b, Js.span p s = (a, b) ->
    s = a ++ b /\ Js.sforall p a = true /\
    match b with String c _ => p c = false | EmptyString => True end.
Proof.
  induction s as [|c r IH]; intros a b; simpl.
  - intros [= <- <-]. now repeat split.
  - destruct (p c) eqn:Hc.
    + destruct (Js.span p r) as [a' b'] eqn:E. intros [= <- <-].
      destruct (IH _ _ eq_refl) as (-> & Ha & Hb). simpl. rewrite Hc, Ha.
      now repeat split.
    + intros [= <- <-]. now repeat split.
Qed.

Lemma sforall_dropStart (p : ascii -> bool) (s : string) :
  Js.sforall p (Js.dropStart p s) = Js.sforall p s.
Proof.
  induction s as [|c r IH]; simpl; [reflexivity|].
  destruct (p c) eqn:Hc; simpl; [exact IH|now rewrite Hc].
Qed.

Lemma dropEnd_empty (p : ascii -> bool) (s : string) :
  Js.dropEnd p s = EmptyString -> Js.sforall p s = true.
Proof.
  induction s as [|c r IH]; simpl; [reflexivity|].
  destruct (p c); simpl; [|discriminate].
  destruct (Js.dropEnd p r); [intros _; now apply IH|discriminate].
Qed.

Lemma sforall_app (p : ascii -> bool) (a b : string) :
  Js.sforall p (a ++ b) = Js.sforall p a && Js.sforall p b.
Proof. induction a as [|c a IH]; simpl; [reflexivity|]. now rewrite IH, andb_assoc. Qed.

(** A string with a character that is not white space is not trimmed
    away. *)
Lemma trim_nonempty (a b : string) (c : ascii) :
  Js.isSpace c = false -> Js.trim (a ++ String c b) <> EmptyString.
Proof.
  intros Hc E. unfold Js.trim, Js.trimEnd, Js.trimStart in E.
  apply dropEnd_empty in E. rewrite sforall_dropStart, sforall_app in E.
  simpl in E. rewrite Hc, andb_false_r in E. discriminate E.
Qed.

Lemma trim_nonempty_after (a b : string) (x c : ascii) :
  Js.isSpace c = false ->
  Js.trim (a ++ String x (String c b)) <> EmptyString.
Proof.
  intros Hc.
  change (a ++ String x (String c b))
    with (a ++ String x EmptyString ++ String c b).
  rewrite <- sapp_assoc. now apply trim_nonempty.
Qed.

Lemma identToEnd_Some (s w : string) :
  Parser.identToEnd s = Some w ->
  exists c r, w = String c r /\ Js.isSpace c = false.
Proof.
  unfold Parser.identToEnd.
  destruct (Js.span Js.isWord s) as [a b] eqn:E.
  apply span_spec in E as (_ & Ha & _).
  destruct a as [|c r]; [discriminate|]. cbn [Js.isEmpty].
  destruct (Js.isEmpty _); [|discriminate]. intros [= <-].
  exists c, r. split; [reflexivity|].
  simpl in Ha. apply andb_true_iff in Ha as [Hc _].
  pose proof (isWord_not_space c) as H. rewrite Hc in H. exact H.
Qed.

Lemma tryDesignators_Some (alts : list string) (s g1 g2 : string) :
  Parser.tryDesignators alts s = Some (g1, g2) ->
  exists c r, g2 = String c r /\ Js.isSpace c = false.
Proof.
  induction alts as [|alt more IH]; simpl; [discriminate|].
  destruct (Parser.ciPrefix alt s) as [[m rest]|]; [|exact IH].
  destruct (Parser.unitTail rest) as [w|] eqn:E; [|exact IH].
  intros [= <- <-]. unfold Parser.unitTail in E.
  now apply identToEnd_Some in E.
Qed.

(** The unit the parser extracts is not empty. *)
Lemma extractUnit_nonempty (K : Constants) (working u w' : string) :
  Parser.extractUnit K Parser.unitPatterns working = (Some u, w') ->
  u <> EmptyString.
Proof.
  unfold Parser.unitPatterns. cbn [Parser.extractUnit]. unfold Parser.search.
  destruct (Parser.searchFrom Parser.unitAt1 false working)
    as [[before [g1 g2]]|] eqn:E1.
  - apply searchFrom_sound in E1 as (s' & _ & Hm).
    unfold Parser.unitAt1 in Hm.
    destruct (Parser.boundary _ s'); [|discriminate].
    destruct (Parser.tryDesignators Parser.unitDesignators s')
      as [[h1 h2]|] eqn:Ht; [|discriminate].
    injection Hm as <- <-.
    apply tryDesignators_Some in Ht as (c & r & -> & Hc).
    intros [= <- _]. cbn [Js.orNull Js.truthy Js.isEmpty negb].
    now apply trim_nonempty_after.
  - destruct (Parser.searchFrom Parser.unitAt2 false working)
      as [[before [g1 g2]]|] eqn:E2; [|discriminate].
    apply searchFrom_sound in E2 as (s' & _ & Hm).
    unfold Parser.unitAt2 in Hm.
    destruct s' as [|c0 r0]; [discriminate|].
    destruct (Js.isSpace c0); [|discriminate].
    destruct (Js.trimStart r0) as [|h t]; [discriminate|].
    destruct (Js.code h =? 35)%N; [|discriminate].
    destruct (Parser.identToEnd t) as [w|] eqn:Hi; [|discriminate].
    injection Hm as <- <-.
    apply identToEnd_Some in Hi as (c & r & -> & Hc).
    intros [= <- _]. cbn [Js.orNull Js.truthy].
    now apply trim_nonempty_after.
Qed.

(** The street number the parser extracts starts with a digit. *)
Lemma numberMatch_Some (working n rest : string) :
  Parser.numberMatch working = Some (n, rest) ->
  exists c r, n = String c r /\ Js.isDigit c = true.
Proof.
  unfold Parser.numberMatch.
  destruct working as [|c w]; [discriminate|].
  destruct (Js.isDigit c) eqn:Hc; [|discriminate].
  cbn [Js.span]. unfold Parser.isNumberBody at 1. rewrite Hc. cbn [orb].
  destruct (Js.span Parser.isNumberBody w) as [a b].
  destruct (match b with
            | String l r => if Js.isAlpha l then (String l EmptyString, r)
                            else (EmptyString, b)
            | EmptyString => (EmptyString, b)
            end) as [letter r2].
  destruct r2 as [|x r2]; [discriminate|].
  destruct (Js.isSpace x); [|discriminate].
  intros [= <- _]. now exists c, (a ++ letter).
Qed.

Lemma headIsSpace_not_blank (w : string) :
  Js.headIsSpace w = false -> w = EmptyString \/ Js.trim w <> EmptyString.
Proof.
  destruct w as [|c r]; [now left|]. simpl. intros Hc. right.
  apply (trim_nonempty EmptyString r c Hc).
Qed.

Lemma headIsSpace_trimStart (s : string) :
  Js.headIsSpace (Js.trimStart s) = false.
Proof.
  unfold Js.trimStart. pose proof (dropStart_head Js.isSpace s) as H.
  now destruct (Js.dropStart Js.isSpace s).
Qed.

Lemma capitalize_nonempty (w : string) :
  w <> EmptyString -> Parser.capitalize w <> EmptyString.
Proof. destruct w; [now intros H; elim H|discriminate]. Qed.

Lemma normalizeWordAt_nonempty (K : Constants) (a b : bool) (w : string) :
  w <> EmptyString -> Parser.normalizeWordAt K a b w <> EmptyString.
Proof.
  intros Hw. unfold Parser.normalizeWordAt; cbv zeta.
  destruct (if a then Js.orNull _ else None) as [d|] eqn:Hd.
  - destruct a; [|discriminate]. now apply orNull_Some_nonempty in Hd.
  - destruct (if b then Js.orNull _ else None) as [t|] eqn:Ht.
    + destruct b; [|discriminate]. now apply orNull_Some_nonempty in Ht.
    + now apply capitalize_nonempty.
Qed.

Lemma join_nonempty (sep w : string) (ws : list string) :
  w <> EmptyString -> Js.join sep (w :: ws) <> EmptyString.
Proof.
  intros Hw. destruct ws; simpl; [exact Hw|]. now apply sapp_nonempty.
Qed.

(** A street name that is not white space only is normalized to null or
    to a string that is not empty. *)
Lemma normalizeStreetName_nonempty (K : Constants) (w : string) :
  w = EmptyString \/ Js.trim w <> EmptyString ->
  Parser.normalizeStreetName K (Some w) <> Some EmptyString.
Proof.
  intros [->|Ht]; [discriminate|].
  assert (Hw : w <> EmptyString) by (intros ->; now apply Ht).
  rewrite (normalizeStreetName_Some K w Hw).
  destruct (trim_shape w) as [He Hh].
  destruct (splitSpaces_good (Js.trim w) Ht He) as [_ Hg].
  specialize (Hg Hh). fold (Js.splitSpaces (Js.trim w)) in Hg.
  destruct (Js.splitSpaces (Js.trim w)) as [|x xs] eqn:E.
  - now apply splitSpacesFrom_nonempty in E.
  - apply Forall_cons_iff in Hg as [[Hx _] _]. cbn [Parser.mapiFrom].
    match goal with
    | |- Some (Js.join ?sep (?y :: ?ys)) <> _ =>
        assert (J : Js.join sep (y :: ys) <> EmptyString)
          by now apply join_nonempty, normalizeWordAt_nonempty
    end.
    intros H. apply J. congruence.
Qed.

Lemma parseStreetAddress_nonempty (K : Constants) (x : string) :
  let r := Parser.parseStreetAddress K (Js.trim x) in
  Shape.nullOrNonEmpty (Parser.StreetResult.number r) /\
  Shape.nullOrNonEmpty (Parser.StreetResult.street r) /\
  Shape.nullOrNonEmpty (Parser.StreetResult.unit r).
Proof.
  cbv zeta. unfold Parser.parseStreetAddress, Shape.nullOrNonEmpty.
  destruct (Js.isEmpty (Js.trim x)); [repeat split; discriminate|].
  destruct (Parser.extractUnit K Parser.unitPatterns (Js.trim x))
    as [unit working] eqn:Eu.
  assert (Hworking : Js.headIsSpace working = false).
  { revert Eu. unfold Parser.unitPatterns. cbn [Parser.extractUnit].
    destruct (Parser.search Parser.unitAt1 (Js.trim x)) as [[b1 [g1 g2]]|].
    - intros [= _ <-]. apply trim_shape.
    - destruct (Parser.search Parser.unitAt2 (Js.trim x)) as [[b2 [h1 h2]]|].
      + intros [= _ <-]. apply trim_shape.
      + intros [= _ <-]. apply trim_shape. }
  assert (Hunit : unit <> Some EmptyString).
  { destruct unit as [u|]; [|discriminate]. intros [= ->].
    now apply extractUnit_nonempty in Eu. }
  destruct (Parser.numberMatch working) as [[n rest]|] eqn:En;
    cbn [Parser.StreetResult.number Parser.StreetResult.street
         Parser.StreetResult.unit].
  - split; [|split; [|exact Hunit]].
    + apply numberMatch_Some in En as (c & r & -> & _). discriminate.
    + apply normalizeStreetName_nonempty, headIsSpace_not_blank.
      revert En. unfold Parser.numberMatch.
      destruct working as [|c w]; [discriminate|].
      destruct (Js.isDigit c); [|discriminate].
      destruct (Js.span Parser.isNumberBody (String c w)) as [a b].
      destruct (match b with
                | String l r => if Js.isAlpha l then (String l EmptyString, r)
                                else (EmptyString, b)
                | EmptyString => (EmptyString, b)
                end) as [letter r2].
      destruct r2 as [|y r2]; [discriminate|].
      destruct (Js.isSpace y); [|discriminate].
      intros [= _ <-]. apply headIsSpace_trimStart.
  - split; [discriminate|]. split; [|exact Hunit].
    now apply normalizeStreetName_nonempty, headIsSpace_not_blank.
Qed.

Lemma cleanCityName_nonempty (city : string) :
  Parser.cleanCityName city <> Some EmptyString.
Proof.
  unfold Parser.cleanCityName.
  destruct (Js.isEmpty city); [discriminate|]. cbv zeta.
  set (cleaned := Js.dropStart Parser.isCommaOrSpace _).
  pose proof (dropStart_head Parser.isCommaOrSpace
                (Js.dropEnd Parser.isCommaOrSpace (Js.trim city))) as Hh.
  fold cleaned in Hh.
  destruct cleaned as [|c r]; [discriminate|]. cbn [Js.isEmpty].
  unfold Parser.isCommaOrSpace in Hh. apply orb_false_iff in Hh as [_ Hc].
  unfold Js.splitSpaces. cbn [Js.splitSpacesFrom]. rewrite Hc.
  pose proof (splitSpacesFrom_nonempty false r) as Hn.
  destruct (Js.splitSpacesFrom false r) as [|x xs]; [now elim Hn|].
  cbn [map].
  match goal with
  | |- Some (Js.join ?sep (?y :: ?ys)) <> _ =>
      assert (J : Js.join sep (y :: ys) <> EmptyString)
        by (apply join_nonempty; discriminate)
  end.
  intros H. apply J. congruence.
Qed.



(** ** The normalizer does not look at the case of its input *)

Section CharMap.

Variable f : ascii -> ascii.
Variable p : ascii -> bool.
Hypothesis Hp : forall c, p (f c) = p c.

Lemma isEmpty_smap (s : string) : Js.isEmpty (Js.smap f s) = Js.isEmpty s.
Proof. now destruct s. Qed.

Lemma dropStart_smap (s : string) :
  Js.dropStart p (Js.smap f s) = Js.smap f (Js.dropStart p s).
Proof.
  induction s as [|c r IH]; simpl; [reflexivity|].
  rewrite Hp. now destruct (p c).
Qed.

Lemma dropEnd_smap (s : string) :
  Js.dropEnd p (Js.smap f s) = Js.smap f (Js.dropEnd p s).
Proof.
  induction s as [|c r IH]; simpl; [reflexivity|].
  rewrite Hp, IH, isEmpty_smap. now destruct (_ && _).
Qed.

End CharMap.

Lemma splitSpacesFrom_smap (f : ascii -> ascii) (s : string) :
  (forall c, Js.isSpace (f c) = Js.isSpace c) ->
  forall b, Js.splitSpacesFrom b (Js.smap f s)
            = map (Js.smap f) (Js.splitSpacesFrom b s).
Proof.
  intros Hf. induction s as [|c r IH]; intros b; simpl; [reflexivity|].
  rewrite Hf. destruct (Js.isSpace c).
  - destruct b; simpl; now rewrite IH.
  - rewrite IH. now destruct (Js.splitSpacesFrom false r).
Qed.

Lemma trim_toUpperCase (s : string) :
  Js.trim (Js.toUpperCase s) = Js.toUpperCase (Js.trim s).
Proof.
  unfold Js.trim, Js.trimEnd, Js.trimStart, Js.toUpperCase.
  now rewrite dropStart_smap, dropEnd_smap by apply isSpace_upperChar.
Qed.

Lemma capitalize_toUpperCase (w : string) :
  Parser.capitalize (Js.toUpperCase w) = Parser.capitalize w.
Proof.
  destruct w as [|c r]; [reflexivity|].
  unfold Parser.capitalize. cbn [Js.toUpperCase Js.smap Js.charAt0 Js.slice1].
  fold (Js.toUpperCase r). rewrite toLowerCase_toUpperCase.
  unfold Js.toUpperCase. simpl. now rewrite upperChar_idem.
Qed.

Lemma normalizeWordAt_toUpperCase (K : Constants) (a b : bool) (w : string) :
  Parser.normalizeWordAt K a b (Js.toUpperCase w)
  = Parser.normalizeWordAt K a b w.
Proof.
  unfold Parser.normalizeWordAt.
  now rewrite toLowerCase_toUpperCase, capitalize_toUpperCase.
Qed.

Lemma mapiFrom_map {A B C : Type} (g : Z -> B -> C) (h : A -> B) (l : list A) :
  forall i, Parser.mapiFrom g i (map h l)
            = Parser.mapiFrom (fun j x => g j (h x)) i l.
Proof. induction l as [|x l IH]; intros i; simpl; now rewrite ?IH. Qed.

Lemma mapiFrom_ext {A B : Type} (g h : Z -> A -> B) (l : list A) :
  (forall j x, g j x = h j x) ->
  forall i, Parser.mapiFrom g i l = Parser.mapiFrom h i l.
Proof.
  intros E. induction l as [|x l IH]; intros i; simpl; now rewrite ?E, ?IH.
Qed.

Lemma normalizeStreetName_toUpperCase (K : Constants) (s : string) :
  Parser.normalizeStreetName K (Some (Js.toUpperCase s))
  = Parser.normalizeStreetName K (Some s).
Proof.
  destruct s as [|c r]; [reflexivity|].
  rewrite !normalizeStreetName_Some by discriminate.
  rewrite trim_toUpperCase. unfold Js.splitSpaces, Js.toUpperCase.
  rewrite splitSpacesFrom_smap by apply isSpace_upperChar.
  rewrite length_map, mapiFrom_map. f_equal. f_equal.
  apply mapiFrom_ext. intros j x. apply normalizeWordAt_toUpperCase.
Qed.

(** X7: two street names that differ in the case of their letters only
    are normalized to the same name. *)
Theorem normalizeStreetName_ignores_case (K : Constants) (s1 s2 : string)
    (Hsame : Js.toLowerCase s1 = Js.toLowerCase s2) :
  Parser.normalizeStreetName K (Some s1)
  = Parser.normalizeStreetName K (Some s2).
Proof.
  rewrite <- (normalizeStreetName_toUpperCase K s1),
    <- (normalizeStreetName_toUpperCase K s2).
  now rewrite <- (toUpperCase_toLowerCase s1), Hsame, toUpperCase_toLowerCase.
Qed.

Lemma normalizeStreetName_ignores_case_witness :
  Parser.normalizeStreetName constants (Some "n MAIN st")
  = Parser.normalizeStreetName constants (Some "N main ST").
Proof.
  apply (normalizeStreetName_ignores_case constants "n MAIN st" "N main ST").
  reflexivity.
Defined.

(** ** The formatted address *)

(** X8: [formatAddress] answers null exactly when the verified address has
    no street number, street, city, state or ZIP code and there is no
    unit. *)
Theorem formatAddress_null_iff (v : Verified.t) (unit : option string) :
  Service.formatAddress v unit = None <->
  Js.truthy (Verified.streetNumber v) = false /\
  Js.truthy (Verified.street v) = false /\
  Js.truthy unit = false /\
  Js.truthy (Verified.city v) = false /\
  Js.truthy (Verified.state v) = false /\
  Js.truthy (Verified.zipCode v) = false.
Proof.
  destruct v as [sn st ci sa zi co la lo cf dn pt im].
  unfold Service.formatAddress.
  cbn [Verified.streetNumber Verified.street Verified.city Verified.state
       Verified.zipCode].
  destruct sn as [[|? ?]|], st as [[|? ?]|], unit as [[|? ?]|],
    ci as [[|? ?]|], sa as [[|? ?]|], zi as [[|? ?]|];
    cbn; (split; [intros H; try discriminate H; repeat split
                 |intros (H1 & H2 & H3 & H4 & H5 & H6);
                  try discriminate; reflexivity]).
Qed.

(** X9: with a street number, a street, a city, a state and a ZIP code,
    the formatted address is "number street, city, state zip", the unit
    following the street when there is one. *)
Theorem formatAddress_complete (v : Verified.t) (sn st ci sa zi : string)
    (Hsn : Verified.streetNumber v = Some sn) (Hsn' : sn <> EmptyString)
    (Hst : Verified.street v = Some st) (Hst' : st <> EmptyString)
    (Hci : Verified.city v = Some ci) (Hci' : ci <> EmptyString)
    (Hsa : Verified.state v = Some sa) (Hsa' : sa <> EmptyString)
    (Hzi : Verified.zipCode v = Some zi) (Hzi' : zi <> EmptyString) :
  Service.formatAddress v None
  = Some (sn ++ " " ++ st ++ ", " ++ ci ++ ", " ++ sa ++ " " ++ zi) /\
  forall u, u <> EmptyString ->
    Service.formatAddress v (Some u)
    = Some (sn ++ " " ++ st ++ " " ++ u ++ ", " ++ ci ++ ", " ++ sa ++ " "
            ++ zi).
Proof.
  unfold Service.formatAddress. rewrite Hsn, Hst, Hci, Hsa, Hzi.
  destruct sn as [|c1 sn]; [now elim Hsn'|].
  destruct st as [|c2 st]; [now elim Hst'|].
  destruct ci as [|c3 ci]; [now elim Hci'|].
  destruct sa as [|c4 sa]; [now elim Hsa'|].
  destruct zi as [|c5 zi]; [now elim Hzi'|].
  split.
  - cbn. repeat (first [rewrite sapp_assoc | progress cbn]). reflexivity.
  - intros [|c6 u] Hu; [now elim Hu|]. cbn.
    repeat (first [rewrite sapp_assoc | progress cbn]). reflexivity.
Qed.

Lemma formatAddress_complete_witness :
  Service.formatAddress
    (Verified.mk (Some "123") (Some "Main Street") (Some "New York")
       (Some "NY") (Some "10001") "US" 40.75%float (-74)%float 95 None None
       None) None
  = Some "123 Main Street, New York, NY 10001".
Proof.
  apply (formatAddress_complete _ "123" "Main Street" "New York" "NY" "10001");
    (reflexivity || discriminate).
Defined.

(** ** Responses of [validateAddress] *)

Lemma createResponse_input st p g issues cs :
  Response.input (Service.createResponse st p g issues cs)
  = Js.orNull (option_map Parsed.raw p).
Proof. unfold Service.createResponse. now destruct g. Qed.

Lemma createResponse_coordinates st p g issues cs :
  Response.coordinates (Service.createResponse st p g issues cs)
  = option_map
      (fun v => Coordinates.mk (Verified.latitude v) (Verified.longitude v)) g
  /\ Response.confidence (Service.createResponse st p g issues cs)
     = option_map Verified.confidence g.
Proof. unfold Service.createResponse. now destruct g. Qed.

Lemma parsed_unit_nonempty (K : Constants) (input : Js.value) (p : Parsed.t) :
  Parser.parseAddress K input = Some p -> Js.orNull (Parsed.unit p) = Parsed.unit p.
Proof.
  intros Hparse. apply parseAddress_Some in Hparse as (s & _ & _ & ->).
  unfold Parser.parseString; cbv zeta. cbn [Parsed.unit].
  set (parts := map Js.trim (Js.splitComma (Parser.normalize s))).
  assert (H : Parser.StreetResult.unit
                match nth_error parts 0 with
                | Some streetPart => Parser.parseStreetAddress K streetPart
                | None => Parser.StreetResult.mk None None None
                end <> Some EmptyString).
  { unfold parts. destruct (Js.splitComma (Parser.normalize s)) as [|x xs];
      cbn; [discriminate|]. apply parseStreetAddress_nonempty. }
  revert H. generalize (Parser.StreetResult.unit
                match nth_error parts 0 with
                | Some streetPart => Parser.parseStreetAddress K streetPart
                | None => Parser.StreetResult.mk None None None
                end).
  intros [[|c r]|] H; try reflexivity. now elim H.
Qed.

Section Responses.

Variable K : Constants.
Variable geocodeAddress : Js.value -> option Verified.t.
Variable structuredSearch : Parsed.t -> option Verified.t.

Let validate := Service.validateAddress K geocodeAddress structuredSearch.
Let final := Service.finalResult geocodeAddress structuredSearch.

(** X10: the [input] of a response is the caller's string whenever the
    string is not empty, and null for every other input. *)
Theorem validateAddress_input (input : Js.value) :
  Response.input (validate input)
  = match input with
    | Js.VString s => if Js.isEmpty s then None else Some s
    | _ => None
    end.
Proof.
  destruct (validateAddress_cases K geocodeAddress structuredSearch input)
    as [[P E]|[(p & P & _ & E)|[(p & v & P & _ & _ & E)|(p & v & P & _ & _ & E)]]];
    fold validate in E; rewrite E; clear E.
  - rewrite createResponse_input.
    destruct input as [| |b|n|[|c s]|]; try reflexivity. discriminate P.
  - unfold Service.handleUnverifiableAddress; cbv zeta.
    rewrite createResponse_input.
    apply parseAddress_Some in P as (s & -> & Hs & ->).
    destruct s; [now elim Hs|reflexivity].
  - rewrite createResponse_input.
    apply parseAddress_Some in P as (s & -> & Hs & ->).
    destruct s; [now elim Hs|reflexivity].
  - rewrite createResponse_input.
    apply parseAddress_Some in P as (s & -> & Hs & ->).
    destruct s; [now elim Hs|reflexivity].
Qed.

(** X11: the handler answers 422 with an 'invalid' result and 200 with a
    'valid', 'corrected' or 'unverifiable' one; the body is the result of
    [validateAddress] and there is no other status. *)
Theorem validateAddressHandler_status (input : Js.value) :
  let answer :=
    Controller.validateAddressHandler K geocodeAddress structuredSearch input in
  snd answer = validate input /\
  ((fst answer = 422%Z /\ Response.status (snd answer) = "invalid") \/
   (fst answer = 200%Z /\
    (Response.status (snd answer) = "valid" \/
     Response.status (snd answer) = "corrected" \/
     Response.status (snd answer) = "unverifiable"))).
Proof.
  cbv zeta. unfold Controller.validateAddressHandler, Controller.respond.
  cbv zeta. cbn [fst snd]. fold validate. split; [reflexivity|].
  destruct (validateAddress_cases K geocodeAddress structuredSearch input)
    as [[P E]|[(p & P & _ & E)|[(p & v & P & _ & _ & E)|(p & v & P & _ & _ & E)]]];
    fold validate in E; rewrite E; clear E.
  - rewrite createResponse_status. now left.
  - rewrite handleUnverifiableAddress_status.
    destruct (Service.hasMinimumComponents p); [right|left]; auto.
  - rewrite createResponse_status. now left.
  - rewrite createResponse_status, status_of_corrections.
    destruct (Service.corrections _); [right; auto|].
    destruct (70 <=? _)%Z; right; auto.
Qed.

(** X12: the structured search plays no part when the free-text lookup
    answers, nor when the parsed address has neither street nor city. *)
Theorem validateAddress_structuredSearch_unused (input : Js.value)
    (other : Parsed.t -> option Verified.t)
    (Hunused :
       geocodeAddress input <> None \/
       forall p, Parser.parseAddress K input = Some p ->
                 Service.hasMinimumComponents p = false) :
  Service.validateAddress K geocodeAddress other input = validate input.
Proof.
  unfold validate, Service.validateAddress.
  destruct (Parser.parseAddress K input) as [p|]; [|reflexivity].
  assert (E : Service.finalResult geocodeAddress other input p
              = Service.finalResult geocodeAddress structuredSearch input p).
  { unfold Service.finalResult; cbv zeta.
    destruct Hunused as [H|H].
    - destruct (geocodeAddress input); [reflexivity|now elim H].
    - rewrite (H p eq_refl). now rewrite andb_false_r. }
  now rewrite E.
Qed.

(** X13: when a verified address was found, whatever its country, the
    response carries an address built from it (with the parsed unit), its
    coordinates and its confidence; when none was found it carries neither
    coordinates nor confidence, and an address, built from the parsed
    fields with no formatted text, only if a street or a city was parsed. *)
Theorem validateAddress_address (input : Js.value) (p : Parsed.t)
    (Hparse : Parser.parseAddress K input = Some p) :
  (forall v, final input p = Some v ->
     Response.address (validate input)
     = Some (Address.mk (Verified.streetNumber v) (Verified.street v)
               (Parsed.unit p) (Verified.city v) (Verified.state v)
               (Verified.zipCode v)
               (Service.formatAddress v (Parsed.unit p))) /\
     Response.coordinates (validate input)
     = Some (Coordinates.mk (Verified.latitude v) (Verified.longitude v)) /\
     Response.confidence (validate input) = Some (Verified.confidence v)) /\
  (final input p = None ->
     Response.address (validate input)
     = (if Service.hasMinimumComponents p
        then Some (Address.mk (Parsed.streetNumber p) (Parsed.street p)
                     (Parsed.unit p) (Parsed.city p) (Parsed.state p)
                     (Parsed.zipCode p) None)
        else None) /\
     Response.coordinates (validate input) = None /\
     Response.confidence (validate input) = None).
Proof.
  pose proof (parsed_unit_nonempty K input p Hparse) as Hunit.
  unfold validate, final, Service.validateAddress. rewrite Hparse.
  split.
  - intros v ->.
    destruct (Service.outsideUS v); unfold Service.createResponse;
      cbn; rewrite Hunit; now repeat split.
  - intros ->. unfold Service.handleUnverifiableAddress; cbv zeta.
    unfold Service.hasMinimumComponents.
    destruct (Js.truthy (Parsed.street p) || Js.truthy (Parsed.city p));
      unfold Service.createResponse; cbn; now repeat split.
Qed.

(** X14: a response is 'valid' or 'corrected' only when a verified address
    was found that does not name a country other than "US"; its confidence
    is then in the response, a 'corrected' response has confidence at least
    70 and some corrections, and a 'valid' one has no corrections. *)
Theorem validateAddress_verified_backing (input : Js.value)
    (Hstatus : Response.status (validate input) = "valid" \/
               Response.status (validate input) = "corrected") :
  exists p v,
    Parser.parseAddress K input = Some p /\
    final input p = Some v /\
    Service.outsideUS v = false /\
    Response.confidence (validate input) = Some (Verified.confidence v) /\
    (Response.status (validate input) = "corrected" ->
       (70 <= Verified.confidence v)%Z /\
       Response.corrections (validate input)
       = Some (Service.corrections (Service.determineStatus p v)) /\
       Service.corrections (Service.determineStatus p v) <> []) /\
    (Response.status (validate input) = "valid" ->
       Response.corrections (validate input) = None).
Proof.
  destruct (validateAddress_cases K geocodeAddress structuredSearch input)
    as [[P E]|[(p & P & F & E)|[(p & v & P & F & O & E)|(p & v & P & F & O & E)]]];
    fold validate in E; try fold final in F; rewrite E in *; clear E.
  - rewrite createResponse_status in Hstatus.
    destruct Hstatus; discriminate.
  - rewrite handleUnverifiableAddress_status in Hstatus.
    destruct (Service.hasMinimumComponents p), Hstatus; discriminate.
  - rewrite createResponse_status in Hstatus.
    destruct Hstatus; discriminate.
  - exists p, v. split; [exact P|]. split; [exact F|]. split; [exact O|].
    split; [apply createResponse_coordinates|].
    rewrite createResponse_status, createResponse_corrections,
      status_of_corrections.
    destruct (Service.corrections (Service.determineStatus p v)) as [|c cs].
    + split; [discriminate|reflexivity].
    + destruct (70 <=? Verified.confidence v)%Z eqn:Hc.
      * split; [|discriminate]. intros _. apply Z.leb_le in Hc.
        split; [exact Hc|]. split; [reflexivity|discriminate].
      * split; discriminate.
Qed.

End Responses.

Lemma validateAddress_structuredSearch_unused_witness :
  Service.validateAddress constants (Sample.always Sample.manhattan)
    (fun _ => Some Sample.toronto) (Js.VString ", NY 10001")
  = Service.validateAddress constants (Sample.always Sample.manhattan)
      Sample.nothing (Js.VString ", NY 10001").
Proof.
  apply (validateAddress_structuredSearch_unused constants
           (Sample.always Sample.manhattan) Sample.nothing
           (Js.VString ", NY 10001") (fun _ => Some Sample.toronto)).
  left. discriminate.
Defined.

Lemma validateAddress_address_witness :
  Response.coordinates
    (Service.validateAddress constants (Sample.always Sample.toronto)
       Sample.nothing (Js.VString "100 Queen St W, Toronto, ON M5H 2N2"))
  = Some (Coordinates.mk 43.65625%float (-79.375)%float).
Proof.
  destruct (validateAddress_address constants (Sample.always Sample.toronto)
              Sample.nothing
              (Js.VString "100 Queen St W, Toronto, ON M5H 2N2")
              (Parser.parseString constants
                 "100 Queen St W, Toronto, ON M5H 2N2") eq_refl) as [H _].
  destruct (H Sample.toronto eq_refl) as (_ & Hc & _). exact Hc.
Defined.

Lemma validateAddress_verified_backing_witness :
  exists p v,
    Parser.parseAddress constants
      (Js.VString "New York, New York, NY 10001") = Some p /\
    Service.finalResult (Sample.always Sample.manhattan) Sample.nothing
      (Js.VString "New York, New York, NY 10001") p = Some v /\
    Service.outsideUS v = false.
Proof.
  destruct (validateAddress_verified_backing constants
              (Sample.always Sample.manhattan) Sample.nothing
              (Js.VString "New York, New York, NY 10001"))
    as (p & v & H1 & H2 & H3 & _).
  - left. vm_compute. reflexivity.
  - now exists p, v.
Defined.

(** ** Comparisons of the reconciler *)

Lemma agree_refl (f : Rules.Field) (a : option string) :
  Rules.agree f a a = true.
Proof.
  destruct f, a as [x|]; simpl; unfold Rules.sameIgnoringCase;
    try reflexivity; apply String.eqb_refl.
Qed.

(** X15: a verified address whose five fields are those of the parsed
    address is reported 'valid' with no correction, whatever its
    confidence. *)
Theorem determineStatus_echo (p : Parsed.t) (v : Verified.t)
    (Hecho : forall f, Rules.verified f v = Rules.parsed f p) :
  Service.status (Service.determineStatus p v) = "valid" /\
  Service.corrections (Service.determineStatus p v) = [].
Proof.
  assert (H : Service.corrections (Service.determineStatus p v) = []).
  { rewrite corrections_of_differing. unfold Rules.differing.
    assert (E : forall f, Rules.differs p v f = false).
    { intros f. unfold Rules.differs. rewrite Hecho, agree_refl.
      apply andb_false_r. }
    unfold Rules.evaluationOrder. cbn [filter]. now rewrite !E. }
  split; [|exact H]. now rewrite status_of_corrections, H.
Qed.

Lemma determineStatus_echo_witness :
  let p := Parser.parseString constants "123 Main Street, New York, NY 10001" in
  let v :=
    Verified.mk (Some "123") (Some "Main Street") (Some "New York")
      (Some "NY") (Some "10001") "US" 40.75%float (-74)%float 20 None None
      None in
  Service.status (Service.determineStatus p v) = "valid" /\
  Service.corrections (Service.determineStatus p v) = [].
Proof.
  cbv zeta. apply determineStatus_echo.
  intros f. destruct f; vm_compute; reflexivity.
Defined.

Lemma isDigit_not_hyphen (c : ascii) :
  Js.isDigit c && (Js.code c =? 45)%N = false.
Proof. each_char c. Qed.

Lemma stripPlus4_digits (d t : string) :
  Js.sforall Js.isDigit d = true ->
  Service.stripPlus4 (d ++ t) = d ++ Service.stripPlus4 t.
Proof.
  induction d as [|c d IH]; [reflexivity|]. simpl.
  intros H. apply andb_true_iff in H as [Hc Hd].
  pose proof (isDigit_not_hyphen c) as Hh. rewrite Hc in Hh. simpl in Hh.
  now rewrite Hh, IH.
Qed.

(** X16: for the comparison of ZIP codes a ZIP+4 code counts as its first
    five digits: [normalizeZip] takes the extension off and leaves a
    five-digit code as it is, so the two never give a correction. *)
Theorem normalizeZip_extension (d5 d4 : string)
    (H5 : Shape.digits 5 d5) (H4 : Shape.digits 4 d4) :
  Service.normalizeZip (Some (d5 ++ "-" ++ d4)) = d5 /\
  Service.normalizeZip (Some d5) = d5 /\
  Rules.agree Rules.zipCode (Some (d5 ++ "-" ++ d4)) (Some d5) = true.
Proof.
  assert (E1 : Service.stripPlus4 (d5 ++ "-" ++ d4) = d5).
  { rewrite stripPlus4_digits by apply H5. cbn [append Service.stripPlus4].
    replace (Js.code "-" =? 45)%N with true by reflexivity.
    rewrite <- (sapp_nil_r d4) at 1. rewrite (takeDigits_app _ _ _ H4).
    apply sapp_nil_r. }
  assert (E2 : Service.stripPlus4 d5 = d5).
  { rewrite <- (sapp_nil_r d5) at 1. rewrite stripPlus4_digits by apply H5.
    apply sapp_nil_r. }
  assert (N1 : Service.normalizeZip (Some (d5 ++ "-" ++ d4)) = d5).
  { unfold Service.normalizeZip, Js.orNull.
    destruct d5 as [|c r]; [destruct H5; discriminate|]. exact E1. }
  assert (N2 : Service.normalizeZip (Some d5) = d5).
  { unfold Service.normalizeZip, Js.orNull.
    destruct d5 as [|c r]; [reflexivity|]. exact E2. }
  split; [exact N1|]. split; [exact N2|].
  cbn [Rules.agree]. rewrite <- !normalizeZip_spec, N1, N2.
  apply String.eqb_refl.
Qed.

Lemma normalizeZip_extension_witness :
  Service.normalizeZip (Some "10166-0001") = "10166".
Proof.
  apply (normalizeZip_extension "10166" "0001"); split; reflexivity.
Defined.

(** ** [getStateAbbreviation] *)

Lemma length_smap (f : ascii -> ascii) (s : string) :
  String.length (Js.smap f s) = String.length s.
Proof. induction s as [|c r IH]; simpl; now rewrite ?IH. Qed.

Lemma toUpperCase_idem (s : string) :
  Js.toUpperCase (Js.toUpperCase s) = Js.toUpperCase s.
Proof.
  unfold Js.toUpperCase. induction s as [|c r IH]; simpl; [reflexivity|].
  now rewrite upperChar_idem, IH.
Qed.

Lemma stateMap_codes (name code : string) :
  Js.lookup Geocoding.stateMap name = Some code ->
  String.length code = 2 /\ Js.toUpperCase code = code.
Proof.
  intros H. apply lookup_In in H.
  assert (Hall : forallb
                   (fun e => (String.length (snd e) =? 2)%nat &&
                             String.eqb (Js.toUpperCase (snd e)) (snd e))
                   Geocoding.stateMap = true) by (vm_compute; reflexivity).
  rewrite forallb_forall in Hall. specialize (Hall _ H). cbn [snd] in Hall.
  apply andb_true_iff in Hall as [Hl Hu].
  apply Nat.eqb_eq in Hl. apply String.eqb_eq in Hu. now split.
Qed.


(** X18: a full state name of the table, in any case, is turned into its
    two-letter code. *)
Theorem getStateAbbreviation_name (name code s : string)
    (Hin : In (name, code) Geocoding.stateMap)
    (Hs : Js.toLowerCase s = name) :
  Geocoding.getStateAbbreviation (Some s) = Some code.
Proof.
  assert (Hall : forallb
                   (fun e =>
                      negb (String.length (fst e) =? 2)%nat &&
                      negb (Js.isEmpty (fst e)) &&
                      negb (Js.isEmpty (snd e)) &&
                      match Js.lookup Geocoding.stateMap (fst e) with
                      | Some c => String.eqb c (snd e)
                      | None => false
                      end)
                   Geocoding.stateMap = true) by (vm_compute; reflexivity).
  rewrite forallb_forall in Hall. specialize (Hall _ Hin).
  cbn [fst snd] in Hall.
  apply andb_true_iff in Hall as [Hall Hl].
  apply andb_true_iff in Hall as [Hall Hc].
  apply andb_true_iff in Hall as [H2 Hn].
  destruct (Js.lookup Geocoding.stateMap name) as [c|] eqn:El; [|discriminate].
  apply String.eqb_eq in Hl as ->.
  assert (Hlen : String.length s = String.length name).
  { rewrite <- Hs. unfold Js.toLowerCase. now rewrite length_smap. }
  unfold Geocoding.getStateAbbreviation, Js.orNull.
  destruct s as [|x r].
  - simpl in Hs. subst name. discriminate Hn.
  - cbn [Js.truthy Js.isEmpty negb]. rewrite Hlen.
    apply negb_true_iff in H2. rewrite H2, Hs, El.
    destruct code; [discriminate Hc|reflexivity].
Qed.

Lemma getStateAbbreviation_name_witness :
  Geocoding.getStateAbbreviation (Some "New York") = Some "NY".
Proof.
  apply (getStateAbbreviation_name "new york" "NY" "New York");
    [|reflexivity].
  unfold Geocoding.stateMap. simpl. tauto.
Defined.

(** ** The street number *)

Lemma parseStreetAddress_number (K : Constants) (part n : string) :
  Parser.StreetResult.number (Parser.parseStreetAddress K part) = Some n ->
  exists working rest, Parser.numberMatch working = Some (n, rest).
Proof.
  unfold Parser.parseStreetAddress.
  destruct (Js.isEmpty part); [discriminate|].
  destruct (Parser.extractUnit K Parser.unitPatterns part) as [unit working].
  destruct (Parser.numberMatch working) as [[m rest]|] eqn:E;
    cbn [Parser.StreetResult.number]; [|discriminate].
  intros [= <-]. now exists working, rest.
Qed.

Lemma numberMatch_shape (working n rest : string) :
  Parser.numberMatch working = Some (n, rest) -> Shape.streetNumberShape n.
Proof.
  unfold Parser.numberMatch.
  destruct working as [|c w]; [discriminate|].
  destruct (Js.isDigit c) eqn:Hc; [|discriminate].
  cbn [Js.span]. unfold Parser.isNumberBody at 1. rewrite Hc. cbn [orb].
  destruct (Js.span Parser.isNumberBody w) as [a b] eqn:Es.
  apply span_spec in Es as (_ & Ha & _).
  assert (Hletter :
            forall letter r2,
              match b with
              | String l r => if Js.isAlpha l then (String l EmptyString, r)
                              else (EmptyString, b)
              | EmptyString => (EmptyString, b)
              end = (letter, r2) ->
              letter = EmptyString \/
              exists l, letter = String l EmptyString /\ Js.isAlpha l = true).
  { intros letter r2. destruct b as [|l r]; [intros [= <- _]; now left|].
    destruct (Js.isAlpha l) eqn:Hl; intros [= <- _]; [right|now left].
    now exists l. }
  destruct (match b with
            | String l r => if Js.isAlpha l then (String l EmptyString, r)
                            else (EmptyString, b)
            | EmptyString => (EmptyString, b)
            end) as [letter r2] eqn:El.
  destruct r2 as [|x r2]; [discriminate|].
  destruct (Js.isSpace x); [|discriminate].
  intros [= <- _]. exists c, a, letter. split; [reflexivity|].
  split; [exact Hc|]. split; [exact Ha|]. now apply (Hletter _ _ eq_refl).
Qed.

(** X19: the street number of a parsed address starts with a digit, goes
    on with digits and hyphens, and ends with at most one letter. *)
Theorem parsed_streetNumber_shape (K : Constants) (input : Js.value)
    (p : Parsed.t) (n : string)
    (Hparse : Parser.parseAddress K input = Some p)
    (Hnumber : Parsed.streetNumber p = Some n) :
  Shape.streetNumberShape n.
Proof.
  apply parseAddress_Some in Hparse as (s & _ & _ & ->).
  unfold Parser.parseString in Hnumber; cbv zeta in Hnumber.
  cbn [Parsed.streetNumber] in Hnumber.
  destruct (nth_error _ 0) as [part|]; [|discriminate].
  apply parseStreetAddress_number in Hnumber as (working & rest & Hm).
  now apply (numberMatch_shape _ _ _ Hm).
Qed.

Lemma parsed_streetNumber_shape_witness :
  Shape.streetNumberShape "221B".
Proof.
  apply (parsed_streetNumber_shape constants
           (Js.VString "221B Baker St, Springfield, IL 62701")
           (Parser.parseString constants
              "221B Baker St, Springfield, IL 62701") "221B");
    vm_compute; reflexivity.
Defined.

(** ** White space around the input *)

Lemma dropStart_all (p : ascii -> bool) (a s : string) :
  Js.sforall p a = true -> Js.dropStart p (a ++ s) = Js.dropStart p s.
Proof.
  induction a as [|c a IH]; simpl; [reflexivity|].
  intros H. apply andb_true_iff in H as [Hc Ha]. now rewrite Hc, IH.
Qed.

Lemma dropStart_empty (p : ascii -> bool) (s : string) :
  Js.dropStart p s = EmptyString -> Js.sforall p s = true.
Proof.
  induction s as [|c r IH]; simpl; [reflexivity|].
  destruct (p c); [exact IH|discriminate].
Qed.

Lemma dropStart_app (p : ascii -> bool) (s t : string) :
  Js.dropStart p s <> EmptyString ->
  Js.dropStart p (s ++ t) = Js.dropStart p s ++ t.
Proof.
  induction s as [|c r IH]; simpl; [now intros H; elim H|].
  destruct (p c); [exact IH|reflexivity].
Qed.

Lemma dropEnd_all_empty (p : ascii -> bool) (b : string) :
  Js.sforall p b = true -> Js.dropEnd p b = EmptyString.
Proof.
  induction b as [|c b IH]; simpl; [reflexivity|].
  intros H. apply andb_true_iff in H as [Hc Hb]. now rewrite Hc, IH.
Qed.

Lemma dropEnd_all (p : ascii -> bool) (s b : string) :
  Js.sforall p b = true -> Js.dropEnd p (s ++ b) = Js.dropEnd p s.
Proof.
  intros Hb. induction s as [|c r IH]; simpl;
    [now apply dropEnd_all_empty|now rewrite IH].
Qed.

Lemma trim_padding (lead s trail : string) :
  Js.sforall Js.isSpace lead = true -> Js.sforall Js.isSpace trail = true ->
  Js.trim (lead ++ s ++ trail) = Js.trim s.
Proof.
  intros Hl Ht. unfold Js.trim, Js.trimStart, Js.trimEnd.
  rewrite (dropStart_all _ _ _ Hl).
  destruct (Js.dropStart Js.isSpace s) as [|c r] eqn:E.
  - apply dropStart_empty in E.
    assert (Hall : Js.sforall Js.isSpace (s ++ trail) = true)
      by now rewrite sforall_app, E, Ht.
    pose proof (sforall_dropStart Js.isSpace (s ++ trail)) as H.
    rewrite Hall in H.
    destruct (Js.dropStart Js.isSpace (s ++ trail)) as [|x y] eqn:E2;
      [reflexivity|].
    pose proof (dropStart_head Js.isSpace (s ++ trail)) as Hh.
    rewrite E2 in Hh. simpl in H. rewrite Hh in H. discriminate H.
  - rewrite dropStart_app by (rewrite E; discriminate).
    rewrite E. now apply dropEnd_all.
Qed.

(** X20: white space before and after the input does not change what is
    parsed: the components are the same, only [raw] keeps the input as it
    came. *)
Theorem parseAddress_padding (K : Constants) (lead s trail : string)
    (Hs : s <> EmptyString)
    (Hlead : Js.sforall Js.isSpace lead = true)
    (Htrail : Js.sforall Js.isSpace trail = true) :
  exists p p',
    Parser.parseAddress K (Js.VString s) = Some p /\
    Parser.parseAddress K (Js.VString (lead ++ s ++ trail)) = Some p' /\
    Shape.components p' = Shape.components p /\
    Parsed.raw p' = lead ++ s ++ trail.
Proof.
  exists (Parser.parseString K s), (Parser.parseString K (lead ++ s ++ trail)).
  split; [destruct s; [now elim Hs|reflexivity]|].
  split.
  - assert (H : lead ++ s ++ trail <> EmptyString).
    { destruct lead; simpl; [now apply sapp_nonempty|discriminate]. }
    destruct (lead ++ s ++ trail); [now elim H|reflexivity].
  - split; [|reflexivity].
    assert (Hn : Parser.normalize (lead ++ s ++ trail) = Parser.normalize s).
    { unfold Parser.normalize. now rewrite trim_padding. }
    unfold Shape.components, Parser.parseString; cbv zeta.
    cbn [Parsed.streetNumber Parsed.street Parsed.unit Parsed.city
         Parsed.state Parsed.zipCode].
    now rewrite Hn.
Qed.

Lemma parseAddress_padding_witness :
  exists p p',
    Parser.parseAddress constants (Js.VString "1 Elm St, Austin, TX 78701")
    = Some p /\
    Parser.parseAddress constants
      (Js.VString ("  " ++ "1 Elm St, Austin, TX 78701" ++ " "))
    = Some p' /\
    Shape.components p' = Shape.components p /\
    Parsed.raw p' = "  " ++ "1 Elm St, Austin, TX 78701" ++ " ".
Proof.
  apply (parseAddress_padding constants "  " "1 Elm St, Austin, TX 78701" " ");
    (discriminate || reflexivity).
Defined.

(** ** The first two-letter token decides the state *)

Lemma abbrevAt_token (b : bool) (tok suf : string) :
  Shape.twoLetters tok -> Parser.headIsWord suf = false ->
  Parser.abbrevAt b (tok ++ suf) = if b then None else Some tok.
Proof.
  intros [Hl Ha] Hs.
  destruct tok as [|x [|y [|z t]]]; try discriminate Hl.
  simpl in Ha. apply andb_true_iff in Ha as [Hx Hy].
  rewrite andb_true_r in Hy.
  unfold Parser.abbrevAt, Parser.boundary. cbn [append Parser.headIsWord].
  rewrite (isAlpha_isWord _ Hx), Hx, Hy, Hs. now destruct b.
Qed.

Lemma app_inv_length (a b x y : string) :
  a ++ x = b ++ y -> String.length a = String.length b -> a = b /\ x = y.
Proof.
  revert b; induction a as [|c a IH]; intros [|d b]; simpl;
    try discriminate; [now split|].
  intros [= -> E] [= Hl]. destruct (IH _ E Hl) as [-> ->]. now split.
Qed.

Lemma search_first_token (s pre tok suf : string) :
  Shape.firstToken s pre tok suf ->
  Parser.search Parser.abbrevAt s = Some (pre, tok).
Proof.
  intros [(Hs & Htok & Hpre & Hsuf) Hfirst]. unfold Parser.search.
  destruct (Parser.searchFrom Parser.abbrevAt false s) as [[pre' g]|] eqn:E.
  - pose proof (search_abbrevAt_sound _ _ _ _ E) as (suf' & Hs' & Hl & Ha & Hp & Hh).
    assert (Hle : String.length pre <= String.length pre').
    { apply (Hfirst pre' g suf'). now repeat split. }
    destruct (Nat.eq_dec (String.length pre) (String.length pre')) as [Heq|Hne].
    + rewrite Hs in Hs'. destruct (app_inv_length _ _ _ _ Hs' Heq) as [<- H2].
      apply searchFrom_sound in E as (s' & Hs'' & Hm).
      rewrite Hs in Hs''.
      destruct (app_inv_length _ _ _ _ Hs'' eq_refl) as [_ <-].
      rewrite Hpre, (abbrevAt_token false tok suf Htok Hsuf) in Hm.
      now injection Hm as <-.
    + pose proof (searchFrom_leftmost _ _ _ _ _ E pre (tok ++ suf) Hs) as Hm.
      rewrite Hpre, (abbrevAt_token false tok suf Htok Hsuf) in Hm.
      assert (Hlt : String.length pre < String.length pre') by lia.
      specialize (Hm Hlt). discriminate Hm.
  - pose proof (searchFrom_None _ _ _ E pre (tok ++ suf) Hs) as Hm.
    rewrite Hpre, (abbrevAt_token false tok suf Htok Hsuf) in Hm.
    discriminate Hm.
Qed.

(** What the abbreviation pattern finds is the first two-letter token. *)
Lemma first_token_search (s pre tok : string) :
  Parser.search Parser.abbrevAt s = Some (pre, tok) ->
  exists suf, Shape.firstToken s pre tok suf.
Proof.
  unfold Parser.search. intros E.
  pose proof (search_abbrevAt_sound _ _ _ _ E) as (suf & Hs & Hl & Ha & Hp & Hh).
  exists suf. split; [now repeat split|].
  intros pre1 tok1 suf1 (Hs1 & Htok1 & Hp1 & Hh1).
  destruct (Nat.le_gt_cases (String.length pre) (String.length pre1))
    as [Hle|Hgt]; [exact Hle|].
  pose proof (searchFrom_leftmost _ _ _ _ _ E pre1 (tok1 ++ suf1) Hs1 Hgt) as Hm.
  rewrite Hp1, (abbrevAt_token false tok1 suf1 Htok1 Hh1) in Hm.
  discriminate Hm.
Qed.

(** X21: when the first standalone two-letter token of the text is a state
    code, in any case, [extractState] answers that code in upper case with
    its name, whatever state names and other tokens the text holds. *)
Theorem extractState_first_token (K : Constants)
    (address pre tok suf name : string)
    (Hfirst : Shape.firstToken address pre tok suf)
    (Hcode : Js.lookup (US_STATES K) (Js.toUpperCase tok) = Some name)
    (Hname : name <> EmptyString) :
  Parser.extractState K address = Some (Js.toUpperCase tok, name).
Proof.
  unfold Parser.extractState; cbv zeta.
  rewrite (search_first_token _ _ _ _ Hfirst), Hcode.
  unfold Js.orNull. destruct name; [now elim Hname|reflexivity].
Qed.

Lemma extractState_first_token_witness :
  Parser.extractState constants "12 Washington Ave, Portland, or 97201"
  = Some ("OR", "Oregon").
Proof.
  destruct (first_token_search "12 Washington Ave, Portland, or 97201"
              "12 Washington Ave, Portland, " "or") as (suf & Hf);
    [vm_compute; reflexivity|].
  apply (extractState_first_token constants _ _ "or" suf "Oregon" Hf);
    [vm_compute; reflexivity|discriminate].
Defined.

(** ** The normalized text *)

Lemma singleSpaced_collapse (s : string) :
  forall inRun,
    Shape.singleSpaced inRun (Parser.collapseSpacesFrom inRun s) = true.
Proof.
  induction s as [|c r IH]; intros inRun; simpl; [reflexivity|].
  destruct (Js.isSpace c) eqn:Hc.
  - destruct inRun; [apply IH|]. simpl. now rewrite IH.
  - simpl. rewrite Hc. apply IH.
Qed.

Lemma comma_not_space (c : ascii) :
  (Js.code c =? 44)%N && Js.isSpace c = false.
Proof. each_char c. Qed.

Lemma singleSpaced_commaSpacing (t : string) :
  (forall prev, Shape.singleSpaced prev t = true ->
     Shape.singleSpaced prev (Parser.commaSpacingFrom false t) = true) /\
  (forall prev, Shape.singleSpaced prev t = true ->
     Shape.singleSpaced true (Parser.commaSpacingFrom true t) = true).
Proof.
  induction t as [|c r [IHf IHt]]; [now split|].
  assert (Hcomma : forall prev,
             (Js.code c =? 44)%N = true ->
             Shape.singleSpaced false r = true ->
             Shape.singleSpaced prev
               (String "," (String " " (Parser.commaSpacingFrom true r)))
             = true).
  { intros prev _ Hr. cbn. now apply (IHt false). }
  split; intros prev H; cbn [Parser.commaSpacingFrom andb];
    cbn [Shape.singleSpaced] in H.
  - destruct (Js.code c =? 44)%N eqn:Hk.
    + pose proof (comma_not_space c) as Hn. rewrite Hk in Hn. simpl in Hn.
      rewrite Hn in H. now apply Hcomma.
    + cbn [Shape.singleSpaced]. destruct (Js.isSpace c).
      * apply andb_true_iff in H as [H Hr]. rewrite H. now apply IHf.
      * now apply IHf.
  - destruct (Js.isSpace c) eqn:Hc.
    + apply andb_true_iff in H as [_ Hr]. now apply (IHt true).
    + destruct (Js.code c =? 44)%N eqn:Hk; [now apply Hcomma|].
      cbn [Shape.singleSpaced]. rewrite Hc. now apply IHf.
Qed.

Lemma commasSpaced_commaSpacing (t : string) :
  forall skip, Shape.commasSpaced (Parser.commaSpacingFrom skip t) = true.
Proof.
  induction t as [|c r IH]; intros skip; [reflexivity|].
  cbn [Parser.commaSpacingFrom].
  destruct (skip && Js.isSpace c); [apply IH|].
  destruct (Js.code c =? 44)%N eqn:Hk.
  - cbn. apply IH.
  - cbn [Shape.commasSpaced]. now rewrite Hk, IH.
Qed.

Lemma singleSpaced_head (s : string) :
  Js.headIsSpace s = false ->
  Shape.singleSpaced true s = Shape.singleSpaced false s.
Proof. destruct s as [|c r]; simpl; [reflexivity|]. now intros ->. Qed.

Lemma headIsSpace_collapse (s : string) :
  Js.headIsSpace s = false ->
  Js.headIsSpace (Parser.collapseSpaces s) = false.
Proof.
  destruct s as [|c r]; simpl; [reflexivity|]. intros H.
  unfold Parser.collapseSpaces. simpl. now rewrite H.
Qed.

(** X22: in the normalized text the only white space is the space
    character, no two spaces are adjacent, the text does not start with
    one, and every comma is followed by a space. *)
Theorem normalize_tidy (s : string) :
  Shape.singleSpaced true (Parser.normalize s) = true /\
  Shape.commasSpaced (Parser.normalize s) = true.
Proof.
  unfold Parser.normalize, Parser.commaSpacing.
  split; [|apply commasSpaced_commaSpacing].
  apply singleSpaced_commaSpacing.
  destruct (trim_shape s) as [_ Hh].
  rewrite singleSpaced_head by now apply headIsSpace_collapse.
  apply singleSpaced_collapse.
Qed.

(** ** [isValidState] *)

(** X23: [isValidState] does not look at the case of the code it is
    given. *)
Theorem isValidState_ignores_case (K : Constants) (s1 s2 : string)
    (Hsame : Js.toLowerCase s1 = Js.toLowerCase s2) :
  Parser.isValidState K (Some s1) = Parser.isValidState K (Some s2).
Proof.
  assert (Hup : Js.toUpperCase s1 = Js.toUpperCase s2).
  { now rewrite <- (toUpperCase_toLowerCase s1), Hsame,
      toUpperCase_toLowerCase. }
  unfold Parser.isValidState. rewrite Hup.
  destruct s1, s2; try reflexivity; discriminate Hsame.
Qed.

Lemma isValidState_ignores_case_witness :
  Parser.isValidState constants (Some "ny")
  = Parser.isValidState constants (Some "NY").
Proof.
  apply (isValidState_ignores_case constants "ny" "NY"). reflexivity.
Defined.

(** ** [normalizeNominatimResult] *)

Lemma firstTruthy_nonempty (l : list (option string)) :
  Shape.nullOrNonEmpty (Geocoding.firstTruthy l).
Proof.
  unfold Shape.nullOrNonEmpty.
  induction l as [|x r IH]; simpl; [discriminate|].
  destruct x as [[|c s]|]; simpl; try exact IH. discriminate.
Qed.

Lemma getStateAbbreviation_nonempty (stateName : option string) :
  Shape.nullOrNonEmpty (Geocoding.getStateAbbreviation stateName).
Proof.
  unfold Shape.nullOrNonEmpty, Geocoding.getStateAbbreviation.
  destruct (Js.orNull stateName) as [name|] eqn:En; [|discriminate].
  apply orNull_Some_nonempty in En as [_ Hne].
  destruct (String.length name =? 2)%nat.
  - destruct name; [now elim Hne|discriminate].
  - destruct (Js.orNull (Js.lookup Geocoding.stateMap (Js.toLowerCase name)))
      as [code|] eqn:Ec.
    + apply orNull_Some_nonempty in Ec as [_ Hc]. congruence.
    + congruence.
Qed.

(** X24: a verified address that [normalizeNominatimResult] builds always
    names a country, in upper case and "US" when the result has none, so it
    counts as outside the United States exactly when the result has a
    country code other than "us"; and its street number, street, city,
    state and ZIP code are null or not empty. *)
Theorem normalizeNominatimResult_country
    (parseFloat : option string -> float)
    (calculateConfidence : Geocoding.NominatimResult -> Z)
    (result : Geocoding.NominatimResult) :
  let v :=
    Geocoding.normalizeNominatimResult parseFloat calculateConfidence result in
  Verified.country v <> EmptyString /\
  Js.toUpperCase (Verified.country v) = Verified.country v /\
  (Service.outsideUS v = true <->
   exists a code,
     Geocoding.address result = Some a /\
     Geocoding.country_code a = Some code /\
     code <> EmptyString /\ Js.toUpperCase code <> "US") /\
  Forall Shape.nullOrNonEmpty
    [ Verified.streetNumber v; Verified.street v; Verified.city v;
      Verified.state v; Verified.zipCode v ].
Proof.
  cbv zeta. unfold Geocoding.normalizeNominatimResult; cbv zeta.
  cbn [Verified.country Verified.streetNumber Verified.street Verified.city
       Verified.state Verified.zipCode].
  set (addr := match Geocoding.address result with
               | Some a => a
               | None => Geocoding.noAddress
               end).
  unfold Service.outsideUS. cbn [Verified.country].
  split; [|split; [|split]].
  - destruct (Js.orNull _) as [c|] eqn:E; [|discriminate].
    now apply orNull_Some_nonempty in E.
  - destruct (Js.orNull _) as [c|] eqn:E; [|reflexivity].
    apply orNull_Some in E.
    destruct (Geocoding.country_code addr) as [code|]; [|discriminate].
    injection E as <-. apply toUpperCase_idem.
  - destruct (Js.orNull (option_map Js.toUpperCase (Geocoding.country_code addr)))
      as [c|] eqn:E.
    + apply orNull_Some_nonempty in E as [E Hne].
      destruct (Geocoding.country_code addr) as [code|] eqn:Ec; [|discriminate].
      injection E as <-.
      destruct (Js.toUpperCase code) as [|x y] eqn:Eu; [now elim Hne|].
      cbn [Js.isEmpty negb andb]. rewrite negb_true_iff, String.eqb_neq.
      split.
      * intros H. unfold addr in Ec.
        destruct (Geocoding.address result) as [a|]; [|discriminate Ec].
        exists a, code. repeat split; try assumption.
        -- intros ->. discriminate Eu.
        -- now rewrite Eu.
      * intros (a & code' & Ha & Hc & _ & Hus). unfold addr in Ec.
        rewrite Ha in Ec. rewrite Hc in Ec. injection Ec as ->.
        now rewrite <- Eu.
    + split; [discriminate|].
      intros (a & code & Ha & Hc & Hne & _). unfold addr in E.
      rewrite Ha, Hc in E. unfold Js.orNull in E. cbn in E.
      destruct code; [now elim Hne|discriminate E].
  - repeat constructor;
      first [apply firstTruthy_nonempty|apply getStateAbbreviation_nonempty].
Qed.

(** ** Normalizing twice *)

Lemma collapse_singleSpaced (u : string) :
  forall b, Shape.singleSpaced b u = true ->
            Parser.collapseSpacesFrom b u = u.
Proof.
  induction u as [|c r IH]; intros b; simpl; [reflexivity|].
  destruct (Js.isSpace c).
  - intros H. apply andb_true_iff in H as [H Hr].
    apply andb_true_iff in H as [Hc Hb]. apply negb_true_iff in Hb. subst b.
    apply code_eq in Hc as ->. now rewrite (IH _ Hr).
  - intros H. now rewrite (IH _ H).
Qed.

Lemma singleSpaced_dropEnd (u : string) :
  forall b, Shape.singleSpaced b u = true ->
            Shape.singleSpaced b (Js.dropEnd Js.isSpace u) = true.
Proof.
  induction u as [|c r IH]; intros b; simpl; [reflexivity|].
  destruct (Js.isSpace c) eqn:Hc.
  - intros H. apply andb_true_iff in H as [H Hr].
    destruct (Js.isEmpty (Js.dropEnd Js.isSpace r)); simpl; [reflexivity|].
    now rewrite Hc, H, IH.
  - intros H. simpl. rewrite Hc. now apply IH.
Qed.

Lemma commaSpacing_spaces (r : string) :
  forall b, Js.sforall Js.isSpace (Parser.commaSpacingFrom b r) = true ->
            Js.sforall Js.isSpace r = true.
Proof.
  induction r as [|c r IH]; intros b; [reflexivity|].
  cbn [Parser.commaSpacingFrom Js.sforall].
  destruct (b && Js.isSpace c) eqn:E.
  - apply andb_true_iff in E as [_ Hc]. rewrite Hc. apply IH.
  - destruct (Js.code c =? 44)%N; [discriminate|].
    cbn [Js.sforall]. intros H. apply andb_true_iff in H as [Hc Hr].
    rewrite Hc. now apply (IH false).
Qed.

Lemma collapse_spaces (r : string) :
  forall b, Js.sforall Js.isSpace (Parser.collapseSpacesFrom b r) = true ->
            Js.sforall Js.isSpace r = true.
Proof.
  induction r as [|c r IH]; intros b; [reflexivity|].
  cbn [Parser.collapseSpacesFrom Js.sforall].
  destruct (Js.isSpace c) eqn:Hc.
  - destruct b; [apply IH|]. cbn [Js.sforall]. intros H.
    apply andb_true_iff in H as [_ Hr]. now apply (IH true).
  - cbn [Js.sforall]. rewrite Hc. discriminate.
Qed.

Lemma dropEnd_fixed (c : ascii) (r : string) :
  Js.dropEnd Js.isSpace (String c r) = String c r ->
  Js.dropEnd Js.isSpace r = r /\
  (Js.isSpace c = true -> Js.sforall Js.isSpace r = false).
Proof.
  simpl. destruct (Js.isSpace c && Js.isEmpty (Js.dropEnd Js.isSpace r)) eqn:E;
    [discriminate|].
  intros [= H]. split; [exact H|]. intros Hc. rewrite Hc, H in E.
  destruct (Js.sforall Js.isSpace r) eqn:Ha; [|reflexivity].
  apply dropEnd_all_empty in Ha. rewrite H in Ha. subst r. discriminate E.
Qed.

Lemma dropEnd_nonempty (u : string) :
  Js.sforall Js.isSpace u = false ->
  Js.isEmpty (Js.dropEnd Js.isSpace u) = false.
Proof.
  intros H. destruct (Js.dropEnd Js.isSpace u) eqn:E; [|reflexivity].
  apply dropEnd_empty in E. congruence.
Qed.

Lemma commaSpacing_keeps (r : string) (b : bool) :
  Js.sforall Js.isSpace r = false ->
  Js.sforall Js.isSpace (Parser.commaSpacingFrom b r) = false.
Proof.
  intros H. destruct (Js.sforall Js.isSpace (Parser.commaSpacingFrom b r)) eqn:E;
    [|reflexivity].
  apply commaSpacing_spaces in E. congruence.
Qed.

Lemma collapse_keeps (r : string) (b : bool) :
  Js.sforall Js.isSpace r = false ->
  Js.sforall Js.isSpace (Parser.collapseSpacesFrom b r) = false.
Proof.
  intros H. destruct (Js.sforall Js.isSpace (Parser.collapseSpacesFrom b r)) eqn:E;
    [|reflexivity].
  apply collapse_spaces in E. congruence.
Qed.

Lemma commaSpacing_true_head (r : string) :
  Js.headIsSpace (Parser.commaSpacingFrom true r) = false.
Proof.
  induction r as [|c r IH]; [reflexivity|]. cbn [Parser.commaSpacingFrom andb].
  destruct (Js.isSpace c) eqn:Hc; [exact IH|].
  destruct (Js.code c =? 44)%N; [reflexivity|]. simpl. exact Hc.
Qed.

(** The comma spacing of a text is not changed by trimming its end and
    spacing the commas again. *)
Lemma commaSpacing_trimEnd (x : string) :
  forall bI bO,
    Js.dropEnd Js.isSpace x = x ->
    Parser.commaSpacingFrom bO
      (Js.dropEnd Js.isSpace (Parser.commaSpacingFrom bI x))
    = Parser.commaSpacingFrom (bO || bI) x.
Proof.
  induction x as [|c r IH]; intros bI bO Hx; [reflexivity|].
  apply dropEnd_fixed in Hx as [Hr Hc].
  cbn [Parser.commaSpacingFrom].
  destruct (bI && Js.isSpace c) eqn:E.
  - apply andb_true_iff in E as [-> Hs]. rewrite orb_true_r. cbn [andb].
    rewrite Hs, (IH true bO Hr). now rewrite orb_true_r.
  - destruct (Js.code c =? 44)%N eqn:Hk.
    + pose proof (comma_not_space c) as Hn. rewrite Hk in Hn. simpl in Hn.
      rewrite Hn, andb_false_r.
      cbn [Js.dropEnd]. replace (Js.isSpace ",") with false by reflexivity.
      replace (Js.isSpace " ") with true by reflexivity. cbn [andb].
      destruct (Js.isEmpty (Js.dropEnd Js.isSpace (Parser.commaSpacingFrom true r)))
        eqn:Ee.
      * cbn. assert (Hy : Parser.commaSpacingFrom true r = EmptyString).
        { destruct (Js.dropEnd Js.isSpace (Parser.commaSpacingFrom true r))
            eqn:Ed; [|discriminate Ee].
          apply dropEnd_empty in Ed.
          pose proof (commaSpacing_true_head r) as Hh.
          destruct (Parser.commaSpacingFrom true r); [reflexivity|].
          simpl in Ed, Hh. rewrite Hh in Ed. discriminate Ed. }
        now rewrite Hy, andb_false_r.
      * cbn [Parser.commaSpacingFrom]. rewrite andb_false_r.
        replace (Js.code "," =? 44)%N with true by reflexivity.
        cbn [Parser.commaSpacingFrom andb].
        replace (Js.isSpace " ") with true by reflexivity.
        now rewrite (IH true true Hr).
    + cbn [Js.dropEnd].
      destruct (Js.isSpace c) eqn:Hs.
      * assert (bI = false) as -> by (destruct bI; [discriminate E|reflexivity]).
        rewrite orb_false_r.
        rewrite (dropEnd_nonempty _ (commaSpacing_keeps r false (Hc eq_refl))).
        cbn [andb Parser.commaSpacingFrom]. rewrite Hs.
        destruct bO; cbn [andb].
        -- now rewrite (IH false true Hr).
        -- now rewrite Hk, (IH false false Hr).
      * cbn [andb Parser.commaSpacingFrom]. rewrite Hs, !andb_false_r, Hk.
        now rewrite (IH false false Hr).
Qed.

Lemma dropEnd_collapse (y : string) :
  forall b, Js.dropEnd Js.isSpace y = y ->
            Js.dropEnd Js.isSpace (Parser.collapseSpacesFrom b y)
            = Parser.collapseSpacesFrom b y.
Proof.
  induction y as [|c r IH]; intros b Hy; [reflexivity|].
  apply dropEnd_fixed in Hy as [Hr Hc].
  cbn [Parser.collapseSpacesFrom].
  destruct (Js.isSpace c) eqn:Hs.
  - destruct b; [now apply IH|].
    cbn [Js.dropEnd]. rewrite (IH true Hr).
    pose proof (collapse_keeps r true (Hc eq_refl)) as Hk.
    destruct (Parser.collapseSpacesFrom true r); [discriminate Hk|].
    now rewrite andb_false_r.
  - cbn [Js.dropEnd]. rewrite Hs, (IH false Hr). reflexivity.
Qed.

Lemma headIsSpace_commaSpacing (x : string) :
  Js.headIsSpace x = false ->
  Js.headIsSpace (Parser.commaSpacingFrom false x) = false.
Proof.
  destruct x as [|c r]; [reflexivity|]. simpl. intros Hc.
  destruct (Js.code c =? 44)%N; [reflexivity|]. simpl. exact Hc.
Qed.

(** X25: normalizing a normalized text changes nothing, so parsing the
    normalized text of an input gives the components of the input. *)
Theorem normalize_idempotent (K : Constants) (s : string) :
  Parser.normalize (Parser.normalize s) = Parser.normalize s /\
  forall p p',
    Parser.parseAddress K (Js.VString s) = Some p ->
    Parser.parseAddress K (Js.VString (Parser.normalize s)) = Some p' ->
    Shape.components p' = Shape.components p.
Proof.
  assert (H : Parser.normalize (Parser.normalize s) = Parser.normalize s).
  { destruct (normalize_tidy s) as [Ht _].
    unfold Parser.normalize, Parser.commaSpacing in *.
    set (x := Parser.collapseSpaces (Js.trim s)) in *.
    destruct (trim_shape s) as [He Hh].
    assert (Hx : Js.dropEnd Js.isSpace x = x)
      by (apply dropEnd_collapse; exact He).
    assert (Hhx : Js.headIsSpace x = false) by now apply headIsSpace_collapse.
    assert (Htrim : Js.trim (Parser.commaSpacingFrom false x)
                    = Js.dropEnd Js.isSpace (Parser.commaSpacingFrom false x)).
    { unfold Js.trim, Js.trimEnd, Js.trimStart.
      pose proof (headIsSpace_commaSpacing x Hhx) as Hc.
      destruct (Parser.commaSpacingFrom false x) as [|c r]; [reflexivity|].
      simpl in Hc. cbn [Js.dropStart]. now rewrite Hc. }
    rewrite Htrim. unfold Parser.collapseSpaces at 1.
    rewrite collapse_singleSpaced.
    - now rewrite (commaSpacing_trimEnd x false false Hx).
    - apply singleSpaced_dropEnd.
      rewrite <- singleSpaced_head; [exact Ht|].
      now apply headIsSpace_commaSpacing. }
  split; [exact H|]. intros p p' Hp Hp'.
  apply parseAddress_Some in Hp as (t & [= <-] & _ & ->).
  apply parseAddress_Some in Hp' as (t' & [= <-] & _ & ->).
  unfold Shape.components, Parser.parseString; cbv zeta.
  cbn [Parsed.streetNumber Parsed.street Parsed.unit Parsed.city
       Parsed.state Parsed.zipCode].
  now rewrite H.
Qed.

(** The normalized text of an address of the repository's tests, parsed
    again. *)
Example normalize_idempotent_example :
  Parser.normalize "  456 Oak Ave   Apt 2B,Los Angeles ,CA  90001 "
  = "456 Oak Ave Apt 2B, Los Angeles , CA 90001" /\
  option_map Shape.components
    (Sample.parse "  456 Oak Ave   Apt 2B,Los Angeles ,CA  90001 ")
  = option_map Shape.components
      (Sample.parse "456 Oak Ave Apt 2B, Los Angeles , CA 90001").
Proof. split; vm_compute; reflexivity. Qed.

(** ** The unit *)

Lemma identToEnd_word (s w : string) :
  Parser.identToEnd s = Some w ->
  w <> EmptyString /\ Js.sforall Js.isWord w = true.
Proof.
  unfold Parser.identToEnd.
  destruct (Js.span Js.isWord s) as [a b] eqn:E.
  apply span_spec in E as (_ & Ha & _).
  destruct a as [|c r]; [discriminate|]. cbn [Js.isEmpty].
  destruct (Js.isEmpty _); [|discriminate]. intros [= <-].
  split; [discriminate|exact Ha].
Qed.

Lemma tryDesignators_word (alts : list string) (s g1 g2 : string) :
  Parser.tryDesignators alts s = Some (g1, g2) ->
  g2 <> EmptyString /\ Js.sforall Js.isWord g2 = true.
Proof.
  induction alts as [|alt more IH]; simpl; [discriminate|].
  destruct (Parser.ciPrefix alt s) as [[m rest]|]; [|exact IH].
  destruct (Parser.unitTail rest) as [w|] eqn:E; [|exact IH].
  intros [= <- <-]. unfold Parser.unitTail in E.
  now apply identToEnd_word in E.
Qed.

Lemma normalizeUnitType_known (K : Constants) (type : string) :
  Parser.normalizeUnitType K type = "Unit" \/
  exists key, In (key, Parser.normalizeUnitType K type) (UNIT_TYPES K).
Proof.
  unfold Parser.normalizeUnitType; cbv zeta.
  destruct (Js.orNull _) as [u|] eqn:E; [|now left].
  right. apply orNull_Some, lookup_In in E. eauto.
Qed.

Lemma extractUnit_shape (K : Constants) (working u w' : string) :
  Parser.extractUnit K Parser.unitPatterns working = (Some u, w') ->
  exists type ident,
    u = Js.trim (type ++ " " ++ ident) /\
    ident <> EmptyString /\ Js.sforall Js.isWord ident = true /\
    (type = "Unit" \/ exists key, In (key, type) (UNIT_TYPES K)).
Proof.
  unfold Parser.unitPatterns. cbn [Parser.extractUnit]. unfold Parser.search.
  destruct (Parser.searchFrom Parser.unitAt1 false working)
    as [[before [g1 g2]]|] eqn:E1.
  - apply searchFrom_sound in E1 as (s' & _ & Hm).
    unfold Parser.unitAt1 in Hm.
    destruct (Parser.boundary _ s'); [|discriminate].
    destruct (Parser.tryDesignators Parser.unitDesignators s')
      as [[h1 h2]|] eqn:Ht; [|discriminate].
    injection Hm as <- <-.
    apply tryDesignators_word in Ht as [Hne Hw].
    intros [= <- _].
    exists (if Js.truthy (Some h1) then Parser.normalizeUnitType K h1
            else "Unit"), h2.
    split; [|split; [exact Hne|split; [exact Hw|]]].
    + unfold Js.orNull. destruct h2; [now elim Hne|reflexivity].
    + destruct (Js.truthy (Some h1)); [apply normalizeUnitType_known|now left].
  - destruct (Parser.searchFrom Parser.unitAt2 false working)
      as [[before [g1 g2]]|] eqn:E2; [|discriminate].
    apply searchFrom_sound in E2 as (s' & _ & Hm).
    unfold Parser.unitAt2 in Hm.
    destruct s' as [|c0 r0]; [discriminate|].
    destruct (Js.isSpace c0); [|discriminate].
    destruct (Js.trimStart r0) as [|h t]; [discriminate|].
    destruct (Js.code h =? 35)%N; [|discriminate].
    destruct (Parser.identToEnd t) as [w|] eqn:Hi; [|discriminate].
    injection Hm as <- <-.
    apply identToEnd_word in Hi as [Hne Hw].
    intros [= <- _].
    exists (if Js.truthy (Some w) then Parser.normalizeUnitType K w
            else "Unit"), w.
    split; [reflexivity|]. split; [exact Hne|]. split; [exact Hw|].
    destruct (Js.truthy (Some w)); [apply normalizeUnitType_known|now left].
Qed.


